(** * DeviceNode controller (pkg/mgmt/devicenode/devicenode.go)

    A shallow embedding of the reconciliation controller that keeps the
    per-node DeviceNode record in step with the devices found on the node,
    and the properties of it that the specification states.

    Go values that the controller only passes along are plain Rocq values.
    The objects it reaches through pointers (DeviceNode structs and the
    backing arrays of owner-reference slices) live in an explicit heap, so
    that in-place writes and aliasing are visible.  Calls to the outside
    (lister, device provider, API client, work queue, logging) are recorded
    in a trace, in program order.  A worker is followed on its own; [Run],
    which starts the workers as goroutines and feeds the queue from a
    timer, is followed on the goroutine that calls it. *)

From stdpp Require Import base option list strings.
From Stdlib Require Import ZArith Ascii.

Local Open Scope string_scope.
Local Open Scope list_scope.
Local Open Scope nat_scope.

(** ** Data model *)

(** k8s.io/apimachinery/pkg/apis/meta/v1 *)
Module metav1.

(** OwnerReference; [Controller] and [BlockOwnerDeletion] are [*bool] in
    Go, [None] is the nil pointer. *)
Record OwnerReference := mkOwnerReference {
  APIVersion : string;
  Kind : string;
  Name : string;
  UID : string;
  Controller : option bool;
  BlockOwnerDeletion : option bool;
}.

(** The zero value, as found in the unused tail of a backing array. *)
Definition zero : OwnerReference :=
  mkOwnerReference "" "" "" "" None None.

(** [ownerRefs[idx].Controller = v] on a single element. *)
Definition setController (v : option bool) (r : OwnerReference) : OwnerReference :=
  mkOwnerReference (APIVersion r) (Kind r) (Name r) (UID r) v (BlockOwnerDeletion r).

End metav1.

Abbreviation OwnerReference := metav1.OwnerReference.

(** Addresses of heap objects; a Go pointer is [None] when nil. *)
Definition loc := nat.
Definition ptr := option loc.

(** A slice header over a backing array of owner references.  The source
    never re-slices, so the header always starts at offset 0. *)
Record slice := mkSlice {
  array : ptr;
  len : nat;
  cap : nat;
}.

Definition nilSlice : slice := mkSlice None 0 0.

(** pkg/apis/openebs.io/device/v1alpha1 *)
Module apis.

(** Modelled from the spec: the declaration of [apis.Device] is missing
    from the sources; the spec describes it as a value type with a name, a
    path or identifier, a capacity and further descriptive attributes,
    compared by full structural equality. *)
Record Device := mkDevice {
  DevName : string;
  DevPath : string;
  DevCapacity : Z;
  DevAttributes : list (string * string);
}.

(** Modelled from the spec: the declaration of [apis.DeviceNode] is
    missing from the sources; the spec gives the record a namespace and a
    name, a device list, owner references, a store-assigned version token
    and creation metadata.  They are held in the fields of the Kubernetes
    ObjectMeta.  [Devices] is held by value: the controller only ever
    assigns the whole field and never writes into its backing array. *)
Record DeviceNode := mkDeviceNode {
  Namespace : string;
  Name : string;
  UID : string;
  ResourceVersion : string;
  Generation : Z;
  CreationTimestamp : Z;
  Labels : list (string * string);
  Annotations : list (string * string);
  Finalizers : list string;
  OwnerReferences : slice;
  Devices : list Device;
}.

Definition zero : DeviceNode :=
  mkDeviceNode "" "" "" "" 0 0 [] [] [] nilSlice [].

(** [node.OwnerReferences = s] *)
Definition setOwnerReferences (s : slice) (n : DeviceNode) : DeviceNode :=
  mkDeviceNode (Namespace n) (Name n) (UID n) (ResourceVersion n) (Generation n)
    (CreationTimestamp n) (Labels n) (Annotations n) (Finalizers n) s (Devices n).

(** [node.Devices = d] *)
Definition setDevices (d : list Device) (n : DeviceNode) : DeviceNode :=
  mkDeviceNode (Namespace n) (Name n) (UID n) (ResourceVersion n) (Generation n)
    (CreationTimestamp n) (Labels n) (Annotations n) (Finalizers n) (OwnerReferences n) d.

(** [node.Namespace = s], [node.Name = s] (used by the builder). *)
Definition setNamespace (s : string) (n : DeviceNode) : DeviceNode :=
  mkDeviceNode s (Name n) (UID n) (ResourceVersion n) (Generation n)
    (CreationTimestamp n) (Labels n) (Annotations n) (Finalizers n)
    (OwnerReferences n) (Devices n).

Definition setName (s : string) (n : DeviceNode) : DeviceNode :=
  mkDeviceNode (Namespace n) s (UID n) (ResourceVersion n) (Generation n)
    (CreationTimestamp n) (Labels n) (Annotations n) (Finalizers n)
    (OwnerReferences n) (Devices n).

End apis.

Abbreviation Device := apis.Device.
Abbreviation DeviceNode := apis.DeviceNode.

Global Instance Device_eq_dec : EqDecision Device.
Proof. solve_decision. Defined.

(** Values of type [interface{}] that reach the handlers and the queue. *)
Inductive obj :=
| ONil
| OString (s : string)
| ODeviceNode (p : ptr)                       (* *apis.DeviceNode *)
| ODeletedFinalStateUnknown (key : string) (o : obj) (* cache.DeletedFinalStateUnknown *)
| OOther (tag : nat).                         (* any other dynamic type *)

(** Errors and formatted messages.  [fmt.Errorf] and the klog calls keep
    their format string and arguments unrendered. *)
Inductive error :=
| StatusError (reason : string) (message : string)   (* k8s API status error *)
| ErrorString (message : string)                      (* errors.New *)
| Errorf (format : string) (args : list fmtarg)       (* fmt.Errorf *)
with fmtarg :=
| AString (s : string)
| AError (e : error)                                  (* %v of an error *)
| AErrorText (e : error)                              (* err.Error() *)
| AObj (o : obj)
| ADevices (ds : list Device)
| AOwnerRefs (rs : list OwnerReference)
| ANode (n : DeviceNode) (rs : list OwnerReference).

(** k8serror.IsNotFound *)
Definition IsNotFound (err : error) : bool :=
  match err with
  | StatusError reason _ => bool_decide (reason = "NotFound")
  | _ => false
  end.

Inductive severity := Info | Warning.

Inductive event :=
| ListerGet (namespace name : string)
| GetDiskDetails
| KubeCreate (namespace : string) (node : DeviceNode) (refs : list OwnerReference)
| KubeUpdate (namespace : string) (node : DeviceNode) (refs : list OwnerReference)
| Klog (sev : severity) (format : string) (args : list fmtarg)
| HandleError (err : error)
| QueueGet
| QueueAdd (item : obj)
| QueueAddRateLimited (item : obj)
| QueueForget (item : obj)
| QueueDone (item : obj).

(** ** Program state *)

Record State := mkState {
  nodes : list DeviceNode;               (* heap: DeviceNode structs *)
  arrays : list (list OwnerReference);   (* heap: backing arrays *)
  workqueue : list obj;                  (* items the queue will hand out *)
  trace : list event;                    (* calls made so far, oldest first *)
}.

Definition setNodes (ns : list DeviceNode) (st : State) : State :=
  mkState ns (arrays st) (workqueue st) (trace st).
Definition setArrays (as_ : list (list OwnerReference)) (st : State) : State :=
  mkState (nodes st) as_ (workqueue st) (trace st).
Definition setWorkqueue (q : list obj) (st : State) : State :=
  mkState (nodes st) (arrays st) q (trace st).
Definition emit (e : event) (st : State) : State :=
  mkState (nodes st) (arrays st) (workqueue st) (trace st ++ [e]).

(** ** The monad of Go computations: state passing with panics *)

Inductive outcome (A : Type) :=
| Ret (a : A)
| Panic (msg : string).
Arguments Ret {A} a.
Arguments Panic {A} msg.

Definition Go (A : Type) : Type := State → outcome A * State.

Global Instance Go_ret : MRet Go := λ A a st, (Ret a, st).
Global Instance Go_bind : MBind Go := λ A B f m st,
  match m st with
  | (Ret a, st') => f a st'
  | (Panic msg, st') => (Panic msg, st')
  end.

Definition panic {A} (msg : string) : Go A := λ st, (Panic msg, st).
Definition get : Go State := λ st, (Ret st, st).
Definition modify (f : State → State) : Go unit := λ st, (Ret tt, f st).
Definition call (e : event) : Go unit := modify (emit e).

(** [defer cleanup; body]: the deferred call runs when the function
    returns, also when the body panics; the panic then goes on. *)
Definition defer {A} (cleanup : Go unit) (body : Go A) : Go A := λ st,
  match body st with
  | (Ret a, st') =>
      match cleanup st' with
      | (Ret _, st'') => (Ret a, st'')
      | (Panic msg, st'') => (Panic msg, st'')
      end
  | (Panic msg, st') => (Panic msg, (cleanup st').2)
  end.

(** ** Heap operations *)

(** [*p] for a DeviceNode pointer *)
Definition loadNode (p : ptr) : Go DeviceNode := λ st,
  match p with
  | Some a =>
      match nodes st !! a with
      | Some n => (Ret n, st)
      | None => (Panic "invalid memory address", st)
      end
  | None => (Panic "nil pointer dereference", st)
  end.

(** [*p = n] *)
Definition storeNode (p : ptr) (n : DeviceNode) : Go unit := λ st,
  match p with
  | Some a =>
      match nodes st !! a with
      | Some _ => (Ret tt, setNodes (<[a := n]> (nodes st)) st)
      | None => (Panic "invalid memory address", st)
      end
  | None => (Panic "nil pointer dereference", st)
  end.

(** [new(DeviceNode)] initialised with [n] *)
Definition allocNode (n : DeviceNode) : Go ptr := λ st,
  (Ret (Some (length (nodes st))), setNodes (nodes st ++ [n]) st).

(** [make([]OwnerReference, len(xs))] initialised with [xs] *)
Definition allocArray (xs : list OwnerReference) : Go ptr := λ st,
  (Ret (Some (length (arrays st))), setArrays (arrays st ++ [xs]) st).

(** The backing array of a slice. *)
Definition backing (st : State) (s : slice) : list OwnerReference :=
  match array s with
  | Some a => default [] (arrays st !! a)
  | None => []
  end.

(** The elements of a slice, [s[0:len(s)]]. *)
Definition elems (st : State) (s : slice) : list OwnerReference :=
  take (len s) (backing st s).

(** [s[i]] *)
Definition index (s : slice) (i : nat) : Go OwnerReference := λ st,
  if decide (i < len s) then
    match backing st s !! i with
    | Some r => (Ret r, st)
    | None => (Panic "invalid memory address", st)
    end
  else (Panic "index out of range", st).

(** [s[i] = r] *)
Definition setIndex (s : slice) (i : nat) (r : OwnerReference) : Go unit := λ st,
  if decide (i < len s) then
    match array s with
    | Some a =>
        match arrays st !! a with
        | Some xs =>
            if decide (i < length xs)
            then (Ret tt, setArrays (<[a := <[i := r]> xs]> (arrays st)) st)
            else (Panic "invalid memory address", st)
        | None => (Panic "invalid memory address", st)
        end
    | None => (Panic "invalid memory address", st)
    end
  else (Panic "index out of range", st).

(** [append(s, r)]: within capacity the element is written into the
    backing array in place; otherwise a larger array is allocated and the
    elements are copied.  Go only promises that the new capacity suffices.
    The capacity taken here is one that does; the runtime may take a larger
    one (it also rounds up to an allocation size class), which shows in
    [cap] and in the unused tail of the new array only. *)
Definition append (s : slice) (r : OwnerReference) : Go slice := λ st,
  if decide (len s < cap s) then
    match setIndex (mkSlice (array s) (S (len s)) (cap s)) (len s) r st with
    | (Ret _, st') => (Ret (mkSlice (array s) (S (len s)) (cap s)), st')
    | (Panic msg, st') => (Panic msg, st')
    end
  else
    let newcap := S (len s) `max` (2 * cap s) in
    let xs := elems st s ++ [r] in
    match allocArray (xs ++ replicate (newcap - length xs) metav1.zero) st with
    | (Ret a, st') => (Ret (mkSlice a (S (len s)) newcap), st')
    | (Panic msg, st') => (Panic msg, st')
    end.

(** A slice header is well formed in a state when its backing array is
    allocated and long enough for its capacity. *)
Definition wfSlice (st : State) (s : slice) : Prop :=
  len s ≤ cap s ∧
  match array s with
  | Some a => ∃ xs, arrays st !! a = Some xs ∧ cap s ≤ length xs
  | None => cap s = 0
  end.

(** A snapshot of the record a pointer leads to: the struct and the
    elements of its owner-reference slice. *)
Definition snapshot (p : ptr) : Go (DeviceNode * list OwnerReference) :=
  n ← loadNode p;
  st ← get;
  mret (n, elems st (apis.OwnerReferences n)).

(** [for idx := range s { body }], from [idx] on, with [n] rounds left.
    The body answers [Some r] to return [r] from the enclosing function and
    [None] to go on with the next index. *)
Fixpoint forRange {R} (idx n : nat) (body : nat → Go (option R)) : Go (option R) :=
  match n with
  | 0 => mret None
  | S n' =>
      r ← body idx;
      match r with
      | Some x => mret (Some x)
      | None => forRange (S idx) n' body
      end
  end.

(** ** Collaborators outside this file *)

(** k8s.io/client-go/tools/cache: the two key functions, as client-go
    defines them. *)
Module cache.

(** strings.Split(key, "/") *)
Fixpoint splitSlash (key : string) : list string :=
  match key with
  | EmptyString => [EmptyString]
  | String ch rest =>
      if Ascii.eqb ch "/"%char then EmptyString :: splitSlash rest
      else match splitSlash rest with
           | part :: parts => String ch part :: parts
           | [] => [String ch EmptyString]
           end
  end.

(** SplitMetaNamespaceKey: one part is a bare name, two parts are
    namespace and name, anything else is an error. *)
Definition SplitMetaNamespaceKey (key : string) : string * string * option error :=
  match splitSlash key with
  | [name] => (EmptyString, name, None)
  | [namespace; name] => (namespace, name, None)
  | _ => (EmptyString, EmptyString,
          Some (Errorf "unexpected key format: %q" [AString key]))
  end.

(** MetaNamespaceKeyFunc on a DeviceNode: [namespace/name], or the bare
    name when the namespace is empty. *)
Definition MetaNamespaceKeyFunc (node : DeviceNode) : string * option error :=
  if bool_decide (apis.Namespace node = EmptyString)
  then (apis.Name node, None)
  else (apis.Namespace node +:+ "/" +:+ apis.Name node, None).

End cache.

(** pkg/equality *)
Module equality.

(** Take the first element equal to [d] out of [l]. *)
Fixpoint removeFirst (d : Device) (l : list Device) : option (list Device) :=
  match l with
  | [] => None
  | x :: l' =>
      if decide (x = d) then Some l'
      else cons x <$> removeFirst d l'
  end.

(** Modelled from the spec: [equality.Semantic.DeepEqual] on device lists
    (package pkg/equality) is missing from the sources; the spec describes
    the comparison as full structural equality of the devices that is
    insensitive to their order. *)
Fixpoint SemanticDeepEqual (a b : list Device) : bool :=
  match a with
  | [] => match b with [] => true | _ => false end
  | x :: a' =>
      match removeFirst x b with
      | Some b' => SemanticDeepEqual a' b'
      | None => false
      end
  end.

End equality.

(** reflect.DeepEqual on two [*bool]: both nil, or both set to the same
    value. *)
Definition reflectDeepEqual (a b : option bool) : bool := bool_decide (a = b).

(** The controller and what it reaches: its own fields, the package-level
    values of pkg/device (their declarations are not among the sources and
    are taken as parameters), and the answers of the outside world during
    one pass. *)
Record NodeController := mkNodeController {
  ownerRef : OwnerReference;                       (* c.ownerRef *)
  DeviceNamespace : string;                        (* device.DeviceNamespace *)
  NodeID : string;                                 (* device.NodeID *)
  NodeLister : string → string → ptr * option error;
      (* c.NodeLister.DeviceNodes(namespace).Get(name) *)
  GetDiskDetailsResult : list Device * option error;
      (* device.GetDiskDetails() *)
  CreateResult : string → DeviceNode → list OwnerReference → option error;
  UpdateResult : string → DeviceNode → list OwnerReference → option error;
      (* the API server's verdict on a submitted record *)
}.

Definition klogInfof (format : string) (args : list fmtarg) : Go unit :=
  call (Klog Info format args).
Definition klogWarningf (format : string) (args : list fmtarg) : Go unit :=
  call (Klog Warning format args).
Definition runtimeHandleError (err : error) : Go unit :=
  call (HandleError err).

(** pkg/apis/.../zz_generated.deepcopy.go *)
Module deepcopy.

(** Modelled from the spec: the generated [DeepCopy] of DeviceNode is
    missing from the sources; the spec requires the working copy to be a
    deep copy of the cached record.  The copy is a new struct whose
    owner-reference slice has a backing array of its own, of exactly the
    length of the original slice; a nil slice stays nil. *)
Definition DeepCopy (p : ptr) : Go ptr :=
  match p with
  | None => mret None
  | Some _ =>
      n ← loadNode p;
      st ← get;
      let s := apis.OwnerReferences n in
      s' ← match array s with
           | None => mret s
           | Some _ =>
               a ← allocArray (elems st s);
               mret (mkSlice a (len s) (len s))
           end;
      allocNode (apis.setOwnerReferences s' n)
  end.

End deepcopy.

(** pkg/builder/nodebuilder *)
Module nodebuilder.

(** Modelled from the spec: the builder of pkg/builder/nodebuilder is
    missing from the sources; the spec says that the new record is
    constructed with the given namespace and name, the current device
    list and the required owner reference. *)
Record Builder := mkBuilder {
  object : DeviceNode;
  ownerReferences : list OwnerReference;
}.

Definition NewBuilder : Builder := mkBuilder apis.zero [].

Definition WithNamespace (namespace : string) (b : Builder) : Builder :=
  mkBuilder (apis.setNamespace namespace (object b)) (ownerReferences b).

Definition WithName (name : string) (b : Builder) : Builder :=
  mkBuilder (apis.setName name (object b)) (ownerReferences b).

Definition WithDevices (devices : list Device) (b : Builder) : Builder :=
  mkBuilder (apis.setDevices devices (object b)) (ownerReferences b).

(** Variadic: the arguments arrive as a slice of their own. *)
Definition WithOwnerReferences (ownerRefs : list OwnerReference) (b : Builder) : Builder :=
  mkBuilder (object b) ownerRefs.

Definition Build (b : Builder) : Go (ptr * option error) :=
  s ← match ownerReferences b with
      | [] => mret nilSlice
      | refs =>
          a ← allocArray refs;
          mret (mkSlice a (length refs) (length refs))
      end;
  p ← allocNode (apis.setOwnerReferences s (object b));
  mret (p, None).

(** Modelled from the spec: the client of pkg/builder/nodebuilder is
    missing from the sources; the spec has create and update as single
    all-or-nothing calls on the record store that may fail.
    [NewKubeclient().WithNamespace(namespace).Create(node)] submits the
    record as it stands at the call.  The object the client hands back is
    assigned to [node] by the caller and never read, so only the error is
    returned here. *)
Definition Create (c : NodeController) (namespace : string) (node : ptr) : Go (option error) :=
  '(n, refs) ← snapshot node;
  call (KubeCreate namespace n refs);;
  mret (CreateResult c namespace n refs).

(** Modelled from the spec: as for [Create];
    [NewKubeclient().WithNamespace(namespace).Update(node)]. *)
Definition Update (c : NodeController) (namespace : string) (node : ptr) : Go (option error) :=
  '(n, refs) ← snapshot node;
  call (KubeUpdate namespace n refs);;
  mret (UpdateResult c namespace n refs).

End nodebuilder.

(** ** The controller: package devicenode *)

(** [node.f = v]: a write to a field of the struct behind [node]. *)
Definition setField (node : ptr) (f : DeviceNode → DeviceNode) : Go unit :=
  n ← loadNode node;
  storeNode node (f n).

Definition listerGet (c : NodeController) (namespace name : string) : Go (ptr * option error) :=
  call (ListerGet namespace name);;
  mret (NodeLister c namespace name).

Definition listDeviceNames (c : NodeController) : Go (list Device * option error) :=
  call GetDiskDetails;;
  mret (GetDiskDetailsResult c).

(** The body of the loop of isOwnerRefsUpdateRequired at index [idx]. *)
Definition ownerRefsLoopBody (c : NodeController) (ownerRefs : slice) (idx : nat)
  : Go (option (slice * bool)) :=
  let reqOwnerRef := ownerRef c in
  r ← index ownerRefs idx;
  if bool_decide (metav1.UID r ≠ metav1.UID reqOwnerRef) then mret None
  else
    r ← index ownerRefs idx;
    if negb (reflectDeepEqual (metav1.Controller r) (metav1.Controller reqOwnerRef))
    then
      r ← index ownerRefs idx;
      setIndex ownerRefs idx
        (metav1.setController (metav1.Controller reqOwnerRef) r);;
      mret (Some (ownerRefs, true))
    else mret (Some (ownerRefs, false)).

(** isOwnerRefsUpdateRequired *)
Definition isOwnerRefsUpdateRequired (c : NodeController) (ownerRefs : slice)
  : Go (slice * bool) :=
  let reqOwnerRef := ownerRef c in
  found ← forRange 0 (len ownerRefs) (ownerRefsLoopBody c ownerRefs);
  match found with
  | Some res => mret res
  | None =>
      ownerRefs' ← append ownerRefs reqOwnerRef;
      mret (ownerRefs', true)
  end.

(** [err != nil && !k8serror.IsNotFound(err)] *)
Definition failedOtherThanNotFound (err : option error) : bool :=
  match err with
  | Some e => negb (IsNotFound e)
  | None => false
  end.

(** The branch of syncNode that creates the record. *)
Definition createNode (c : NodeController) (namespace name : string)
    (devices : list Device) : Go (option error) :=
  '(node, err) ← nodebuilder.Build
      (nodebuilder.WithOwnerReferences [ownerRef c]
        (nodebuilder.WithDevices devices
          (nodebuilder.WithName name
            (nodebuilder.WithNamespace namespace nodebuilder.NewBuilder))));
  match err with
  | Some e => mret (Some e)
  | None =>
      '(n, refs) ← snapshot node;
      klogInfof "device node controller: creating new node object for %+v" [ANode n refs];;
      err ← nodebuilder.Create c namespace node;
      match err with
      | Some e =>
          mret (Some (Errorf "create device node %s/%s: %v"
                        [AString namespace; AString name; AError e]))
      | None =>
          klogInfof "device node controller: created node object %s/%s"
            [AString namespace; AString name];;
          mret None
      end
  end.

(** Lines 93-98 of syncNode: the owner references of the working copy are
    checked and, when needed, replaced.  The answer is whether an update
    is required on their account. *)
Definition syncOwnerRefs (c : NodeController) (node : ptr) : Go bool :=
  n ← loadNode node;
  '(ownerRefs, req) ← isOwnerRefsUpdateRequired c (apis.OwnerReferences n);
  if req : bool then
    n ← loadNode node;
    st ← get;
    klogInfof
      "device node controller: node owner references updated current=%+v, required=%+v"
      [AOwnerRefs (elems st (apis.OwnerReferences n)); AOwnerRefs (elems st ownerRefs)];;
    setField node (apis.setOwnerReferences ownerRefs);;
    mret true
  else mret false.

(** Lines 101-106 of syncNode: the devices of the working copy are compared
    with the devices just listed and, when they differ, replaced.
    [updateRequired] is the flag as it stands before the comparison. *)
Definition syncDevices (node : ptr) (devices : list Device) (updateRequired : bool)
  : Go bool :=
  n ← loadNode node;
  if negb (equality.SemanticDeepEqual (apis.Devices n) devices) then
    klogInfof
      "device node controller: node devices updated current=%+v, required=%+v"
      [ADevices (apis.Devices n); ADevices devices];;
    setField node (apis.setDevices devices);;
    mret true
  else mret updateRequired.

(** The branch of syncNode that brings an existing record up to date;
    [node] is the working copy. *)
Definition updateNodeObject (c : NodeController) (namespace name : string)
    (node : ptr) (devices : list Device) : Go (option error) :=
  updateRequired ← syncOwnerRefs c node;
  updateRequired ← syncDevices node devices updateRequired;
  if negb updateRequired then mret None
  else
    '(n, refs) ← snapshot node;
    klogInfof "device node controller: updating node object with %+v" [ANode n refs];;
    err ← nodebuilder.Update c namespace node;
    match err with
    | Some e =>
        mret (Some (Errorf "update device node %s/%s: %v"
                      [AString namespace; AString name; AError e]))
    | None =>
        klogInfof "device node controller: updated node object %s/%s"
          [AString namespace; AString name];;
        mret None
    end.

(** syncNode *)
Definition syncNode (c : NodeController) (namespace name : string) : Go (option error) :=
  '(cachedNode, err) ← listerGet c namespace name;
  if failedOtherThanNotFound err then mret err
  else
    node ← match cachedNode with
           | Some _ => deepcopy.DeepCopy cachedNode
           | None => mret None
           end;
    '(devices, err) ← listDeviceNames c;
    match err with
    | Some e => mret (Some e)
    | None =>
        klogInfof "Devices List %+v" [ADevices devices];;
        match node with
        | None => createNode c namespace name devices
        | Some _ => updateNodeObject c namespace name node devices
        end
    end.

(** syncHandler *)
Definition syncHandler (c : NodeController) (key : string) : Go (option error) :=
  let '(namespace, name, err) := cache.SplitMetaNamespaceKey key in
  match err with
  | Some _ =>
      runtimeHandleError (Errorf "invalid resource key: %s" [AString key]);;
      mret None
  | None => syncNode c namespace name
  end.

(** enqueueNode *)
Definition enqueueNode (c : NodeController) (node : ptr) : Go unit :=
  n ← loadNode node;
  if bool_decide (apis.Namespace n ≠ DeviceNamespace c)
     || bool_decide (apis.Name n ≠ NodeID c)
  then
    klogWarningf "skipping device node object %s/%s"
      [AString (apis.Namespace n); AString (apis.Name n)]
  else
    let '(key, err) := cache.MetaNamespaceKeyFunc n in
    match err with
    | Some e => runtimeHandleError e
    | None => call (QueueAdd (OString key))
    end.

(** addNode *)
Definition addNode (c : NodeController) (o : obj) : Go unit :=
  match o with
  | ODeviceNode node =>
      n ← loadNode node;
      klogInfof "Got add event for device node %s/%s"
        [AString (apis.Namespace n); AString (apis.Name n)];;
      enqueueNode c node
  | _ => runtimeHandleError (Errorf "Couldn't get node object %#v" [AObj o])
  end.

(** updateNode; the error message prints the (nil) result of the failed
    assertion, as the source does. *)
Definition updateNode (c : NodeController) (oldObj newObj : obj) : Go unit :=
  match newObj with
  | ODeviceNode newNode =>
      n ← loadNode newNode;
      klogInfof "Got update event for device node %s/%s"
        [AString (apis.Namespace n); AString (apis.Name n)];;
      enqueueNode c newNode
  | _ => runtimeHandleError
           (Errorf "Couldn't get node object %#v" [AObj (ODeviceNode None)])
  end.

(** The tail of deleteNode, once a DeviceNode pointer is at hand. *)
Definition deleteNodeFound (c : NodeController) (node : ptr) : Go unit :=
  n ← loadNode node;
  klogInfof "Got delete event for node %s/%s"
    [AString (apis.Namespace n); AString (apis.Name n)];;
  enqueueNode c node.

(** deleteNode *)
Definition deleteNode (c : NodeController) (o : obj) : Go unit :=
  match o with
  | ODeviceNode node => deleteNodeFound c node
  | ODeletedFinalStateUnknown _ tombstoneObj =>
      match tombstoneObj with
      | ODeviceNode node => deleteNodeFound c node
      | _ => runtimeHandleError
               (Errorf "Tombstone contained object that is not a DeviceNode %#v" [AObj o])
      end
  | _ => runtimeHandleError (Errorf "Couldn't get object from tombstone %#v" [AObj o])
  end.

(** [c.workqueue.Get()].  The queue is scripted: it hands out the items of
    [workqueue] in order and reports shutdown once they are used up;
    blocking on an empty queue is not modelled. *)
Definition workqueueGet : Go (obj * bool) := λ st,
  match workqueue st with
  | o :: q => (Ret (o, false), emit QueueGet (setWorkqueue q st))
  | [] => (Ret (ONil, true), emit QueueGet st)
  end.

(** The function literal inside processNextWorkItem. *)
Definition processItem (c : NodeController) (o : obj) : Go (option error) :=
  defer (call (QueueDone o))
    (match o with
     | OString key =>
         err ← syncHandler c key;
         match err with
         | Some e =>
             call (QueueAddRateLimited (OString key));;
             mret (Some (Errorf "error syncing '%s': %s, requeuing"
                           [AString key; AErrorText e]))
         | None =>
             call (QueueForget o);;
             klogInfof "Successfully synced '%s'" [AString key];;
             mret None
         end
     | _ =>
         call (QueueForget o);;
         runtimeHandleError
           (Errorf "expected string in workqueue but got %#v" [AObj o]);;
         mret None
     end).

(** processNextWorkItem *)
Definition processNextWorkItem (c : NodeController) : Go bool :=
  '(o, shutdown) ← workqueueGet;
  if shutdown : bool then mret false
  else
    err ← processItem c o;
    match err with
    | Some e => runtimeHandleError e;; mret true
    | None => mret true
    end.

(** runWorker: [for c.processNextWorkItem() {}].  Every round takes one
    item off the scripted queue, so [fuel] above its length is enough. *)
Fixpoint runWorker (fuel : nat) (c : NodeController) : Go unit :=
  match fuel with
  | 0 => panic "out of fuel"
  | S fuel' =>
      more ← processNextWorkItem c;
      if more : bool then runWorker fuel' c else mret tt
  end.

(** ** Run, on its own goroutine

    [Run] is followed on the goroutine that calls it.  The workers it
    starts run elsewhere and appear here as the [go] statements that start
    them.  What the outside decides is given beforehand: whether the caches
    synced, and, for each round of the loop, which case [select] took. *)

(** The case a [select] of the loop takes. *)
Inductive selected :=
| TimerFired                        (* case <-timer.C *)
| StopClosed.                       (* case <-stopCh *)

(** The calls of [Run], in program order. *)
Inductive runEvent :=
| RunInfo (msg : string)            (* klog.Info *)
| WaitForCacheSync
| GoWorker                          (* go wait.Until(c.runWorker, time.Second, stopCh) *)
| NewTimer (d : Z)
| RunQueueAdd (item : obj)          (* c.workqueue.Add(item) *)
| TimerReset (d : Z)
| TimerStop
| QueueShutDown
| HandleCrash.

(** How a call of [Run] stands when the script is used up: it has
    returned, or it waits in [select]. *)
Inductive runOutcome :=
| Returned (err : option error)
| Waiting.

(** [device.DeviceNamespace + "/" + device.NodeID] *)
Definition resyncItem (c : NodeController) : string :=
  DeviceNamespace c +:+ "/" +:+ NodeID c.

(** The loop [for { select {...}; item := ...; Add(item); Reset(...) }]. *)
Fixpoint resyncLoop (c : NodeController) (pollInterval : Z) (script : list selected)
  : runOutcome * list runEvent :=
  match script with
  | [] => (Waiting, [])
  | StopClosed :: _ => (Returned None, [RunInfo "Shutting down Node controller"])
  | TimerFired :: script' =>
      let '(out, calls) := resyncLoop c pollInterval script' in
      (out, RunQueueAdd (OString (resyncItem c)) :: TimerReset pollInterval :: calls)
  end.

(** [for i := 0; i < threadiness; i++ { go ... }] *)
Definition startWorkers (threadiness : Z) : list runEvent :=
  replicate (Z.to_nat threadiness) GoWorker.

(** Run.  [pollInterval] is the field [c.pollInterval], [synced] the
    answer of [cache.WaitForCacheSync].  The deferred calls run, last
    deferred first, when the function returns. *)
Definition Run (c : NodeController) (pollInterval : Z) (threadiness : Z)
    (synced : bool) (script : list selected) : runOutcome * list runEvent :=
  let start :=
    [RunInfo "Starting Node controller";
     RunInfo "Waiting for informer caches to sync";
     WaitForCacheSync] in
  if negb synced then
    (Returned (Some (Errorf "failed to wait for caches to sync" [])),
     start ++ [QueueShutDown; HandleCrash])
  else
    let '(out, calls) := resyncLoop c pollInterval script in
    let body :=
      start ++ [RunInfo "Starting Node workers"] ++ startWorkers threadiness ++
      [RunInfo "Started Node workers"; NewTimer 0] ++ calls in
    match out with
    | Returned err => (Returned err, body ++ [TimerStop; QueueShutDown; HandleCrash])
    | Waiting => (Waiting, body)
    end.

(** ** Notions used to state the properties *)

(** The entries the loop of isOwnerRefsUpdateRequired stops at: those with
    the UID of the required owner. *)
Definition hasOwnerUID (c : NodeController) (r : OwnerReference) : Prop :=
  metav1.UID r = metav1.UID (ownerRef c).

Global Instance hasOwnerUID_dec c r : Decision (hasOwnerUID c r).
Proof. unfold hasOwnerUID. apply _. Defined.

(** Owner-reference repair on plain lists, following the wording of the
    spec: the first entry with the required UID gets the required
    controller flag; without such an entry the required owner reference is
    appended.  The second component says whether anything changed. *)
Definition repairedOwnerRefs (c : NodeController) (refs : list OwnerReference)
  : list OwnerReference * bool :=
  match list_find (hasOwnerUID c) refs with
  | Some (k, r) =>
      if decide (metav1.Controller r = metav1.Controller (ownerRef c))
      then (refs, false)
      else (<[k := metav1.setController (metav1.Controller (ownerRef c)) r]> refs, true)
  | None => (refs ++ [ownerRef c], true)
  end.

(** The create and update calls of a trace. *)
Definition isStoreWrite (e : event) : bool :=
  match e with
  | KubeCreate _ _ _ | KubeUpdate _ _ _ => true
  | _ => false
  end.

Definition storeWrites (t : list event) : list event := List.filter isStoreWrite t.

(** All calls of a trace on the work queue, [Get] apart. *)
Definition isQueueCall (e : event) : bool :=
  match e with
  | QueueAdd _ | QueueAddRateLimited _ | QueueForget _ | QueueDone _ => true
  | _ => false
  end.

Definition queueCalls (t : list event) : list event := List.filter isQueueCall t.

(** Every heap object of [st] is found unchanged in [st']. *)
Definition preserved (st st' : State) : Prop :=
  (∀ a n, nodes st !! a = Some n → nodes st' !! a = Some n) ∧
  (∀ b xs, arrays st !! b = Some xs → arrays st' !! b = Some xs).

(** Two records agree on every field but the owner references and the
    devices. *)
Definition sameButOwnerRefsAndDevices (n n' : DeviceNode) : Prop :=
  apis.Namespace n' = apis.Namespace n ∧
  apis.Name n' = apis.Name n ∧
  apis.UID n' = apis.UID n ∧
  apis.ResourceVersion n' = apis.ResourceVersion n ∧
  apis.Generation n' = apis.Generation n ∧
  apis.CreationTimestamp n' = apis.CreationTimestamp n ∧
  apis.Labels n' = apis.Labels n ∧
  apis.Annotations n' = apis.Annotations n ∧
  apis.Finalizers n' = apis.Finalizers n.

(** What Go's memory safety gives for the answer of the lister: the
    pointer is nil or leads to a record whose owner-reference slice is well
    formed. *)
Definition cachedValid (c : NodeController) (namespace name : string) (st : State) : Prop :=
  ∀ a, (NodeLister c namespace name).1 = Some a →
       ∃ n, nodes st !! a = Some n ∧ wfSlice st (apis.OwnerReferences n).

(** The lister's answer for the record a key names is valid. *)
Definition keyValid (c : NodeController) (key : string) (st : State) : Prop :=
  cachedValid c (cache.SplitMetaNamespaceKey key).1.1
    (cache.SplitMetaNamespaceKey key).1.2 st.

(** A payload that deleteNode accepts: a DeviceNode pointer, or a tombstone
    holding one. *)
Definition deletedNode (o : obj) : option ptr :=
  match o with
  | ODeviceNode p => Some p
  | ODeletedFinalStateUnknown _ (ODeviceNode p) => Some p
  | _ => None
  end.

(** The dynamic type of an item is [string]. *)
Definition isString (o : obj) : bool :=
  match o with
  | OString _ => true
  | _ => false
  end.

(** The state right after [Get] handed out the head of the queue. *)
Definition afterGet (q : list obj) (st : State) : State :=
  emit QueueGet (setWorkqueue q st).

(** The error syncNode returns when the update call fails. *)
Definition updateError (namespace name : string) (res : option error) : option error :=
  match res with
  | Some e => Some (Errorf "update device node %s/%s: %v"
                      [AString namespace; AString name; AError e])
  | None => None
  end.

(** The error syncNode returns when the create call fails. *)
Definition createError (namespace name : string) (res : option error) : option error :=
  match res with
  | Some e => Some (Errorf "create device node %s/%s: %v"
                      [AString namespace; AString name; AError e])
  | None => None
  end.

(** The record the builder makes for syncNode. *)
Definition builtNode (namespace name : string) (devices : list Device) (s : slice)
  : DeviceNode :=
  apis.mkDeviceNode namespace name "" "" 0 0 [] [] [] s devices.

(** ** Further notions

    Used for the properties of the code beyond the claims. *)

(** The two calls that settle an item: forgotten or added again with
    rate limiting, then marked done. *)
Definition settle (o : obj) (requeue : bool) : list event :=
  [if requeue then QueueAddRateLimited o else QueueForget o; QueueDone o].

(** The node is the one this controller is responsible for. *)
Definition isLocal (c : NodeController) (n : DeviceNode) : bool :=
  bool_decide (apis.Namespace n = DeviceNamespace c ∧ apis.Name n = NodeID c).

(** The key enqueueNode makes for the local node. *)
Definition localKey (c : NodeController) : string :=
  if bool_decide (DeviceNamespace c = EmptyString) then NodeID c
  else DeviceNamespace c +:+ "/" +:+ NodeID c.

(** The pointer addNode and updateNode find in a payload. *)
Definition addedNode (o : obj) : option ptr :=
  match o with
  | ODeviceNode p => Some p
  | _ => None
  end.

(** What a handler puts on the queue for the node it found, if any. *)
Definition enqueued (c : NodeController) (st : State) (found : option ptr)
  : list event :=
  match found with
  | Some (Some a) =>
      match nodes st !! a with
      | Some n => if isLocal c n then [QueueAdd (OString (localKey c))] else []
      | None => []
      end
  | _ => []
  end.

(** A payload is safe when the DeviceNode pointer in it, if any, leads to
    a record. *)
Definition payloadValid (st : State) (found : option ptr) : Prop :=
  ∀ p, found = Some p → ∃ a n, p = Some a ∧ nodes st !! a = Some n.

(** The string contains a slash. *)
Fixpoint hasSlash (s : string) : bool :=
  match s with
  | EmptyString => false
  | String ch rest => Ascii.eqb ch "/"%char || hasSlash rest
  end.

(** The API server took the submitted record. *)
Definition accepted (c : NodeController) (e : event) : bool :=
  match e with
  | KubeCreate namespace n refs =>
      match CreateResult c namespace n refs with None => true | Some _ => false end
  | KubeUpdate namespace n refs =>
      match UpdateResult c namespace n refs with None => true | Some _ => false end
  | _ => true
  end.

(** Nothing failed in a pass that made the store writes [w]: the lister
    answered (not-found counts as an answer), the provider answered, and
    every write was taken. *)
Definition passOk (c : NodeController) (namespace name : string) (w : list event) : bool :=
  negb (failedOtherThanNotFound (NodeLister c namespace name).2) &&
  match (GetDiskDetailsResult c).2 with None => true | Some _ => false end &&
  forallb (accepted c) w.

(** The controller once the cache holds the record at [p]. *)
Definition cacheAt (c : NodeController) (p : ptr) : NodeController :=
  mkNodeController (ownerRef c) (DeviceNamespace c) (NodeID c)
    (λ _ _, (p, None)) (GetDiskDetailsResult c) (CreateResult c) (UpdateResult c).

(** The rounds of the loop of [Run] before the stop case is taken. *)
Fixpoint roundsBeforeStop (script : list selected) : nat :=
  match script with
  | TimerFired :: script' => S (roundsBeforeStop script')
  | _ => 0
  end.

(** The stop case is taken at some point of the script. *)
Definition stops (script : list selected) : bool :=
  existsb (λ x, match x with StopClosed => true | TimerFired => false end) script.

Definition isGoWorker (e : runEvent) : bool :=
  match e with GoWorker => true | _ => false end.

Definition isRunQueueAdd (e : runEvent) : bool :=
  match e with RunQueueAdd _ => true | _ => false end.

Definition isQueueShutDown (e : runEvent) : bool :=
  match e with QueueShutDown => true | _ => false end.

(** A handler that found the node [found] in its payload returned, left
    heap, queue contents and store alone, and called the queue for the
    local node only. *)
Definition onlyEnqueues (c : NodeController) (st : State) (found : option ptr)
    (res : outcome unit * State) : Prop :=
  res.1 = Ret tt ∧
  nodes res.2 = nodes st ∧ arrays res.2 = arrays st ∧
  workqueue res.2 = workqueue st ∧
  storeWrites (trace res.2) = storeWrites (trace st) ∧
  queueCalls (trace res.2) = queueCalls (trace st) ++ enqueued c st found.

(** ** A concrete node, for the examples *)

Module example.

Definition owner : OwnerReference :=
  metav1.mkOwnerReference "apps/v1" "DaemonSet" "openebs-device-node" "uid-daemonset"
    (Some true) (Some true).

(** The same owner with the controller flag off. *)
Definition staleOwner : OwnerReference :=
  metav1.mkOwnerReference "apps/v1" "DaemonSet" "openebs-device-node" "uid-daemonset"
    (Some false) (Some true).

Definition other : OwnerReference :=
  metav1.mkOwnerReference "v1" "Node" "worker-1" "uid-node" None None.

Definition sda : Device := apis.mkDevice "sda" "/dev/sda" 512 [].
Definition sdb : Device := apis.mkDevice "sdb" "/dev/sdb" 1024 [].
Definition sdc : Device := apis.mkDevice "sdc" "/dev/sdc" 2048 [].

(** The cached record: two owner references in the array at address 0,
    devices sda and sdb. *)
Definition cached : DeviceNode :=
  apis.mkDeviceNode "openebs" "worker-1" "uid-devicenode" "41" 1 1700000000
    [("kubernetes.io/nodename", "worker-1")] [] [] (mkSlice (Some 0) 2 2) [sda; sdb].

(** A record of another node. *)
Definition foreign : DeviceNode :=
  apis.mkDeviceNode "openebs" "worker-2" "uid-devicenode-2" "7" 1 1700000001
    [] [] [] nilSlice [].

Definition key : string := "openebs/worker-1".

(** The cache holds the record with the owner reference in order, the
    queue holds the key of the node. *)
Definition steady : State :=
  mkState [cached; foreign] [[other; owner]] [OString key] [].

(** The same with the controller flag off in the cache. *)
Definition stale : State :=
  mkState [cached; foreign] [[other; staleOwner]] [OString key] [].

(** Nothing cached yet. *)
Definition empty : State := mkState [] [] [OString key] [].

(** Two entries with the UID of the owner in the cache, the stale one
    first. *)
Definition duplicated : State :=
  mkState [cached; foreign] [[staleOwner; owner]] [OString key] [].

(** Items that are no keys: a number, and a string with two slashes. *)
Definition junk : State :=
  mkState [cached; foreign] [[other; owner]] [OOther 7; OString "a/b/c"] [].

Definition found (namespace name : string) : ptr * option error := (Some 0, None).
Definition notFound (namespace name : string) : ptr * option error :=
  (None, Some (StatusError "NotFound" "devicenode not found")).
Definition unavailable (namespace name : string) : ptr * option error :=
  (None, Some (ErrorString "cache unavailable")).

Definition accept (namespace : string) (n : DeviceNode) (refs : list OwnerReference)
  : option error := None.

Definition controller (lister : string → string → ptr * option error)
    (disks : list Device * option error) : NodeController :=
  mkNodeController owner "openebs" "worker-1" lister disks accept accept.

End example.

(** * Properties *)

(** ** The device comparison *)

Section device_comparison.
Import equality.

Lemma removeFirst_Some d l l' : removeFirst d l = Some l' → l ≡ₚ d :: l'.
Proof.
  revert l'. induction l as [|x l IH]; intros l' H; simpl in H; [done|].
  destruct (decide (x = d)) as [->|Hne].
  - by inversion H.
  - destruct (removeFirst d l) as [k|] eqn:E; simpl in H; [|done].
    inversion H; subst l'. rewrite (IH k eq_refl). apply Permutation_swap.
Qed.

Lemma removeFirst_elem_of d l : d ∈ l → is_Some (removeFirst d l).
Proof.
  induction l as [|x l IH]; intros H; [by apply elem_of_nil in H|].
  simpl. destruct (decide (x = d)); [by eexists|].
  apply elem_of_cons in H as [->|H]; [done|].
  destruct (IH H) as [k ->]. by eexists.
Qed.

Lemma SemanticDeepEqual_Permutation a b :
  SemanticDeepEqual a b = true → a ≡ₚ b.
Proof.
  revert b. induction a as [|x a IH]; intros b H; simpl in H.
  - by destruct b.
  - destruct (removeFirst x b) as [b'|] eqn:E; [|done].
    apply removeFirst_Some in E. rewrite E. f_equiv. by apply IH.
Qed.

Lemma Permutation_SemanticDeepEqual a b :
  a ≡ₚ b → SemanticDeepEqual a b = true.
Proof.
  revert b. induction a as [|x a IH]; intros b H; simpl.
  - apply Permutation_nil_l in H. by subst b.
  - assert (x ∈ b) as Hx by (rewrite <- H; apply elem_of_cons; by left).
    destruct (removeFirst_elem_of _ _ Hx) as [b' E]. rewrite E.
    apply IH. apply removeFirst_Some in E. rewrite E in H.
    by apply (inj (cons x)) in H.
Qed.

Lemma SemanticDeepEqual_spec a b :
  SemanticDeepEqual a b = true ↔ a ≡ₚ b.
Proof.
  split; [apply SemanticDeepEqual_Permutation | apply Permutation_SemanticDeepEqual].
Qed.

(** Lists that differ as sets are not permutations of each other. *)
Lemma SemanticDeepEqual_differ a b :
  ¬ (∀ d, d ∈ a ↔ d ∈ b) → SemanticDeepEqual a b = false.
Proof.
  intros Hne. destruct (SemanticDeepEqual a b) eqn:E; [|done].
  exfalso. apply Hne. intros d.
  apply SemanticDeepEqual_Permutation in E. by rewrite E.
Qed.

End device_comparison.

(** ** Running Go computations *)

Lemma bind_Ret {A B} (m : Go A) (f : A → Go B) st a st' :
  m st = (Ret a, st') → (m ≫= f) st = f a st'.
Proof. unfold mbind, Go_bind. by intros ->. Qed.

Lemma index_Ret s i st r :
  i < len s → backing st s !! i = Some r → index s i st = (Ret r, st).
Proof.
  intros Hi Hr. unfold index. rewrite decide_True by done. by rewrite Hr.
Qed.

Lemma setIndex_Ret s i r st a xs :
  i < len s → array s = Some a → arrays st !! a = Some xs → i < length xs →
  setIndex s i r st = (Ret tt, setArrays (<[a := <[i := r]> xs]> (arrays st)) st).
Proof.
  intros Hi Ha Hxs Hlen. unfold setIndex.
  rewrite decide_True by done. rewrite Ha, Hxs. by rewrite decide_True.
Qed.

Lemma backing_Some st s a xs :
  array s = Some a → arrays st !! a = Some xs → backing st s = xs.
Proof. intros Ha Hxs. unfold backing. by rewrite Ha, Hxs. Qed.

(** ** Owner-reference repair *)

Section owner_refs.
Context (c : NodeController).

(** One round of the loop at an index within the slice. *)
Lemma ownerRefsLoopBody_run s st a xs idx r :
  array s = Some a → arrays st !! a = Some xs →
  idx < len s → xs !! idx = Some r →
  ownerRefsLoopBody c s idx st =
    if decide (hasOwnerUID c r) then
      if decide (metav1.Controller r = metav1.Controller (ownerRef c))
      then (Ret (Some (s, false)), st)
      else (Ret (Some (s, true)),
            setArrays (<[a := <[idx :=
               metav1.setController (metav1.Controller (ownerRef c)) r]> xs]>
               (arrays st)) st)
    else (Ret None, st).
Proof.
  intros Ha Hxs Hidx Hr.
  assert (index s idx st = (Ret r, st)) as Hix
    by (apply index_Ret; [done|]; by rewrite (backing_Some _ _ _ _ Ha Hxs)).
  unfold ownerRefsLoopBody. rewrite (bind_Ret _ _ _ _ _ Hix).
  unfold hasOwnerUID. case_bool_decide as Huid.
  - by rewrite decide_False.
  - rewrite decide_True by done.
    rewrite (bind_Ret _ _ _ _ _ Hix). unfold reflectDeepEqual.
    case_bool_decide as Hctl; simpl.
    + by rewrite decide_True.
    + rewrite decide_False by done.
      rewrite (bind_Ret _ _ _ _ _ Hix).
      erewrite bind_Ret; [done|].
      apply setIndex_Ret; [done..|]. by eapply lookup_lt_Some.
Qed.

(** What the loop does from index [idx] on, read off the first entry with
    the required UID among the remaining ones. *)
Lemma forRange_ownerRefs s st a xs :
  array s = Some a → arrays st !! a = Some xs → len s ≤ length xs →
  ∀ n idx, idx + n = len s →
  forRange idx n (ownerRefsLoopBody c s) st =
    match list_find (hasOwnerUID c) (drop idx (take (len s) xs)) with
    | None => (Ret None, st)
    | Some (k, r) =>
        if decide (metav1.Controller r = metav1.Controller (ownerRef c))
        then (Ret (Some (s, false)), st)
        else (Ret (Some (s, true)),
              setArrays (<[a := <[idx + k :=
                 metav1.setController (metav1.Controller (ownerRef c)) r]> xs]>
                 (arrays st)) st)
    end.
Proof.
  intros Ha Hxs Hlen n. induction n as [|n IH]; intros idx Hn.
  - rewrite drop_ge by (rewrite length_take; lia). done.
  - assert (idx < len s) as Hidx by lia.
    destruct (lookup_lt_is_Some_2 xs idx ltac:(lia)) as [r Hr].
    assert (take (len s) xs !! idx = Some r) as Hr'
      by (by rewrite lookup_take_lt).
    rewrite (drop_S _ _ _ Hr'). cbn [list_find forRange].
    pose proof (ownerRefsLoopBody_run s st a xs idx r Ha Hxs Hidx Hr) as Hbody.
    destruct (decide (hasOwnerUID c r)) as [Hu|Hu].
    + rewrite Nat.add_0_r.
      destruct (decide (metav1.Controller r = metav1.Controller (ownerRef c)));
        by rewrite (bind_Ret _ _ _ _ _ Hbody).
    + rewrite (bind_Ret _ _ _ _ _ Hbody), (IH (S idx)) by lia.
      destruct (list_find (hasOwnerUID c) (drop (S idx) (take (len s) xs)))
        as [[k r']|]; simpl; [|done].
      by rewrite Nat.add_succ_r.
Qed.

(** [append] within capacity writes into the backing array. *)
Lemma append_in_place s r st a xs :
  array s = Some a → arrays st !! a = Some xs →
  len s < cap s → cap s ≤ length xs →
  append s r st =
    (Ret (mkSlice (Some a) (S (len s)) (cap s)),
     setArrays (<[a := <[len s := r]> xs]> (arrays st)) st).
Proof.
  intros Ha Hxs Hlt Hcap. unfold append. rewrite decide_True by done.
  rewrite Ha.
  erewrite (setIndex_Ret _ _ _ _ a xs); [done|simpl; lia|done..|lia].
Qed.

(** [append] at full capacity moves the elements to a new array. *)
Lemma append_grow s r st :
  ¬ len s < cap s →
  append s r st =
    (Ret (mkSlice (Some (length (arrays st))) (S (len s))
            (S (len s) `max` (2 * cap s))),
     setArrays
       (arrays st ++
        [(elems st s ++ [r]) ++
         replicate (S (len s) `max` (2 * cap s) - length (elems st s ++ [r]))
           metav1.zero]) st).
Proof. intros Hge. unfold append. by rewrite decide_False. Qed.

Lemma elems_length st s :
  wfSlice st s → length (elems st s) = len s.
Proof.
  intros [Hle Harr]. unfold elems, backing. rewrite length_take.
  destruct (array s) as [a|].
  - destruct Harr as (xs & -> & Hcap). simpl. lia.
  - simpl. lia.
Qed.

Lemma elems_insert st s a ys :
  array s = Some a → a < length (arrays st) →
  elems (setArrays (<[a := ys]> (arrays st)) st) s = take (len s) ys.
Proof.
  intros Ha Hlt. unfold elems, backing. simpl. rewrite Ha.
  by rewrite list_lookup_insert_eq.
Qed.


(** isOwnerRefsUpdateRequired on a well-formed slice returns, and its
    answer read as a list is the repair of the spec.  A found entry is
    corrected in the array of the slice itself; nothing outside that
    array is written. *)
Lemma isOwnerRefsUpdateRequired_run st s :
  wfSlice st s →
  ∃ s' st',
    isOwnerRefsUpdateRequired c s st
      = (Ret (s', (repairedOwnerRefs c (elems st s)).2), st') ∧
    elems st' s' = (repairedOwnerRefs c (elems st s)).1 ∧
    wfSlice st' s' ∧
    nodes st' = nodes st ∧ trace st' = trace st ∧ workqueue st' = workqueue st ∧
    length (arrays st) ≤ length (arrays st') ∧
    (∀ b, array s ≠ Some b → b < length (arrays st) →
          arrays st' !! b = arrays st !! b) ∧
    ((repairedOwnerRefs c (elems st s)).2 = false → s' = s ∧ st' = st) ∧
    (is_Some (list_find (hasOwnerUID c) (elems st s)) → s' = s) ∧
    (list_find (hasOwnerUID c) (elems st s) = None → elems st' s = elems st s) ∧
    (∀ b, array s' = Some b → array s = Some b ∨ length (arrays st) ≤ b).
Proof.
  intros Hwf. pose proof (elems_length st s Hwf) as Hlen.
  destruct Hwf as [Hle Harr]. unfold isOwnerRefsUpdateRequired, repairedOwnerRefs.
  destruct (array s) as [a|] eqn:Ha.
  - destruct Harr as (xs & Hxs & Hcap).
    pose proof (lookup_lt_Some _ _ _ Hxs) as Halt.
    assert (elems st s = take (len s) xs) as Hel
      by (unfold elems; by rewrite (backing_Some _ _ _ _ Ha Hxs)).
    pose proof (forRange_ownerRefs s st a xs Ha Hxs ltac:(lia) (len s) 0 eq_refl)
      as Hloop.
    rewrite drop_0, <- Hel in Hloop.
    destruct (list_find (hasOwnerUID c) (elems st s)) as [[k r]|] eqn:Hfind.
    + apply list_find_Some in Hfind as (Hk & Hr & Hbefore).
      pose proof (lookup_lt_Some _ _ _ Hk) as Hklt.
      destruct (decide (metav1.Controller r = metav1.Controller (ownerRef c)))
        as [Hctl|Hctl].
      * exists s, st. rewrite (bind_Ret _ _ _ _ _ Hloop).
        split_and!; try done;
          try (intros b' Hb'; simpl in Hb'; first [left; congruence | right; injection Hb' as <-; lia]).
        split; [done|]. rewrite Ha. by exists xs.
      * eexists s, _. rewrite (bind_Ret _ _ _ _ _ Hloop).
        split_and!; try done; simpl;
          try (intros b' Hb'; simpl in Hb'; first [left; congruence | right; injection Hb' as <-; lia]).
        -- rewrite (elems_insert _ _ _ _ Ha) by done.
           by rewrite take_insert_lt, Hel by lia.
        -- split; [done|]. rewrite Ha. eexists. split.
           ++ by apply list_lookup_insert_eq.
           ++ by rewrite length_insert.
        -- by rewrite length_insert.
        -- intros b Hb _. rewrite list_lookup_insert_ne; [done|congruence].
    + rewrite (bind_Ret _ _ _ _ _ Hloop).
      destruct (decide (len s < cap s)) as [Hlt|Hge].
      * eexists _, _.
        rewrite (bind_Ret _ _ _ _ _ (append_in_place s _ st a xs Ha Hxs Hlt Hcap)).
        split_and!; try done; simpl;
          try (intros b' Hb'; simpl in Hb'; first [left; congruence | right; injection Hb' as <-; lia]).
        -- rewrite (elems_insert _ _ a) by done.
           simpl. erewrite take_S_r by (apply list_lookup_insert_eq; lia).
           by rewrite take_insert_ge, Hel by lia.
        -- split; [simpl; lia|]. simpl. eexists. split.
           ++ by apply list_lookup_insert_eq.
           ++ by rewrite length_insert.
        -- by rewrite length_insert.
        -- intros b Hb _. rewrite list_lookup_insert_ne; [done|congruence].
        -- intros _. rewrite (elems_insert _ _ a) by done.
           by rewrite take_insert_ge, Hel by lia.
      * eexists _, _.
        rewrite (bind_Ret _ _ _ _ _ (append_grow s _ st Hge)).
        split_and!; try done; simpl;
          try (intros b' Hb'; simpl in Hb'; first [left; congruence | right; injection Hb' as <-; lia]).
        -- unfold elems at 1, backing. simpl.
           rewrite lookup_app_r, Nat.sub_diag by done. simpl.
           apply take_app_length'. rewrite length_app, Hlen. simpl. lia.
        -- split; [simpl; lia|]. simpl. eexists. split.
           ++ rewrite lookup_app_r, Nat.sub_diag by done. done.
           ++ rewrite length_app, length_replicate, length_app, Hlen. simpl. lia.
        -- rewrite length_app. lia.
        -- intros b _ Hb. by rewrite lookup_app_l.
        -- intros _. unfold elems, backing. simpl. rewrite Ha.
           by rewrite lookup_app_l.
  - assert (len s = 0) as Hz by lia.
    assert (elems st s = []) as Hnil by (unfold elems; by rewrite Hz).
    rewrite Hnil, Hz. cbn [forRange list_find].
    erewrite bind_Ret by reflexivity.
    eexists _, _.
    rewrite (bind_Ret _ _ _ _ _ (append_grow s _ st ltac:(lia))).
    rewrite Hnil, Hz.
    split_and!; try done; simpl;
          try (intros b' Hb'; simpl in Hb'; first [left; congruence | right; injection Hb' as <-; lia]).
    + unfold elems, backing. simpl.
      rewrite lookup_app_r, Nat.sub_diag by done. done.
    + split; [simpl; lia|]. simpl. eexists. split.
      * rewrite lookup_app_r, Nat.sub_diag by done. done.
      * simpl. rewrite length_replicate. lia.
    + rewrite length_app. lia.
    + intros b _ Hb. by rewrite lookup_app_l.
    + intros _. unfold elems, backing. simpl. by rewrite Ha, Hz.
Qed.

End owner_refs.

(** C4. isOwnerRefsUpdateRequired looks for the first entry that carries
    the UID of the required owner.  When that entry has another controller
    flag, the flag alone is corrected in place (same slice header, the other
    fields of the entry and all other entries as before) and the answer is
    "changed"; when the flag is right, nothing is written and the answer is
    "unchanged"; entries after the first match are not looked at.  When no
    entry carries the UID, the required owner reference is appended after the
    existing entries, which all stay, and the answer is "changed". *)
Theorem isOwnerRefsUpdateRequired_contract (c : NodeController) (st : State) (s : slice) :
  wfSlice st s →
  ∃ s' updated st',
    isOwnerRefsUpdateRequired c s st = (Ret (s', updated), st') ∧
    nodes st' = nodes st ∧ trace st' = trace st ∧ workqueue st' = workqueue st ∧
    ((∃ pre r post,
        elems st s = pre ++ r :: post ∧
        Forall (λ x, metav1.UID x ≠ metav1.UID (ownerRef c)) pre ∧
        metav1.UID r = metav1.UID (ownerRef c) ∧
        s' = s ∧
        (metav1.Controller r = metav1.Controller (ownerRef c) →
           updated = false ∧ st' = st) ∧
        (metav1.Controller r ≠ metav1.Controller (ownerRef c) →
           updated = true ∧
           ∃ r', elems st' s = pre ++ r' :: post ∧
                 metav1.Controller r' = metav1.Controller (ownerRef c) ∧
                 metav1.APIVersion r' = metav1.APIVersion r ∧
                 metav1.Kind r' = metav1.Kind r ∧
                 metav1.Name r' = metav1.Name r ∧
                 metav1.UID r' = metav1.UID r ∧
                 metav1.BlockOwnerDeletion r' = metav1.BlockOwnerDeletion r))
     ∨
     (Forall (λ x, metav1.UID x ≠ metav1.UID (ownerRef c)) (elems st s) ∧
      updated = true ∧
      elems st' s' = elems st s ++ [ownerRef c] ∧
      elems st' s = elems st s)).
Proof.
  intros Hwf.
  destruct (isOwnerRefsUpdateRequired_run c st s Hwf)
    as (s' & st' & Hrun & Hel & _ & Hn & Ht & Hq & _ & _ & Hsame & Hfound & Hnone & _).
  exists s', (repairedOwnerRefs c (elems st s)).2, st'.
  split_and!; try done. revert Hel Hsame Hfound Hnone. unfold repairedOwnerRefs.
  destruct (list_find (hasOwnerUID c) (elems st s)) as [[k r]|] eqn:Hfind.
  - intros Hel Hsame Hfound _. left.
    apply list_find_Some in Hfind as (Hk & Hr & Hbefore).
    pose proof (lookup_lt_Some _ _ _ Hk) as Hklt.
    exists (take k (elems st s)), r, (drop (S k) (elems st s)).
    split_and!.
    + by rewrite take_drop_middle.
    + apply Forall_lookup. intros i x Hx.
      apply lookup_take_Some in Hx as [Hx Hi]. by apply (Hbefore i x).
    + done.
    + by apply Hfound.
    + intros Hctl. rewrite decide_True in Hsame |- * by done. split; [done|].
      by apply Hsame.
    + intros Hctl. rewrite decide_False in Hel |- * by done. split; [done|].
      exists (metav1.setController (metav1.Controller (ownerRef c)) r).
      split; [|done]. rewrite <- (Hfound ltac:(done)) at 1. rewrite Hel. simpl.
      rewrite <- (take_drop_middle _ _ _ Hk) at 1.
      rewrite insert_app_r_alt by (rewrite length_take; lia).
      rewrite length_take, Nat.min_l by lia. by rewrite Nat.sub_diag.
  - intros Hel _ _ Hnone. right. apply list_find_None in Hfind.
    split_and!; try done. by apply Hnone.
Qed.

(** ** Steps of a reconciliation pass *)

Lemma loadNode_Ret st a n :
  nodes st !! a = Some n → loadNode (Some a) st = (Ret n, st).
Proof. intros H. unfold loadNode. by rewrite H. Qed.

Lemma setField_Ret st a n f :
  nodes st !! a = Some n →
  setField (Some a) f st = (Ret tt, setNodes (<[a := f n]> (nodes st)) st).
Proof.
  intros H. unfold setField. rewrite (bind_Ret _ _ _ _ _ (loadNode_Ret _ _ _ H)).
  unfold storeNode. by rewrite H.
Qed.

Lemma snapshot_Ret st a n :
  nodes st !! a = Some n →
  snapshot (Some a) st = (Ret (n, elems st (apis.OwnerReferences n)), st).
Proof.
  intros H. unfold snapshot. by rewrite (bind_Ret _ _ _ _ _ (loadNode_Ret _ _ _ H)).
Qed.

Lemma storeWrites_app t1 t2 : storeWrites (t1 ++ t2) = storeWrites t1 ++ storeWrites t2.
Proof. apply List.filter_app. Qed.

Lemma queueCalls_app t1 t2 : queueCalls (t1 ++ t2) = queueCalls t1 ++ queueCalls t2.
Proof. apply List.filter_app. Qed.

Lemma setOwnerReferences_id n : apis.setOwnerReferences (apis.OwnerReferences n) n = n.
Proof. by destruct n. Qed.

Lemma preserved_refl st : preserved st st.
Proof. by split. Qed.

Lemma preserved_trans st1 st2 st3 :
  preserved st1 st2 → preserved st2 st3 → preserved st1 st3.
Proof. intros [H1 H2] [H3 H4]. split; eauto. Qed.

Lemma elems_emit e st s : elems (emit e st) s = elems st s.
Proof. done. Qed.

Lemma elems_setNodes ns st s : elems (setNodes ns st) s = elems st s.
Proof. done. Qed.

(** The deep copy of a record: a new struct and, unless the slice is nil,
    a new backing array with the same elements. *)
Lemma DeepCopy_run st a n :
  nodes st !! a = Some n → wfSlice st (apis.OwnerReferences n) →
  ∃ st1 s1,
    deepcopy.DeepCopy (Some a) st = (Ret (Some (length (nodes st))), st1) ∧
    nodes st1 = nodes st ++ [apis.setOwnerReferences s1 n] ∧
    (∃ extra, arrays st1 = arrays st ++ extra) ∧
    trace st1 = trace st ∧ workqueue st1 = workqueue st ∧
    wfSlice st1 s1 ∧
    elems st1 s1 = elems st (apis.OwnerReferences n) ∧
    (∀ b, array s1 = Some b → length (arrays st) ≤ b).
Proof.
  intros Hn Hwf. pose proof (elems_length st _ Hwf) as Hlen.
  unfold deepcopy.DeepCopy.
  rewrite (bind_Ret _ _ _ _ _ (loadNode_Ret _ _ _ Hn)).
  erewrite bind_Ret by reflexivity.
  destruct (array (apis.OwnerReferences n)) as [b|] eqn:Hb.
  - eexists _, (mkSlice (Some (length (arrays st))) _ _).
    erewrite bind_Ret; [|erewrite bind_Ret by reflexivity; reflexivity].
    split; [reflexivity|]. simpl. split_and!; try done.
    + by eexists.
    + split; [done|]. simpl. eexists. split.
      * rewrite lookup_app_r, Nat.sub_diag by done. done.
      * by rewrite Hlen.
    + unfold elems at 1, backing. simpl.
      rewrite lookup_app_r, Nat.sub_diag by done. simpl.
      by rewrite take_ge by (rewrite Hlen; lia).
    + intros ? [= <-]. done.
  - exists (setNodes (nodes st ++ [apis.setOwnerReferences (apis.OwnerReferences n) n]) st),
      (apis.OwnerReferences n).
    erewrite bind_Ret by reflexivity.
    split; [reflexivity|]. simpl. split_and!; try done.
    + exists []. by rewrite app_nil_r.
    + by rewrite Hb.
Qed.

Lemma syncOwnerRefs_run c st p n :
  nodes st !! p = Some n → wfSlice st (apis.OwnerReferences n) →
  ∃ st' s',
    syncOwnerRefs c (Some p) st
      = (Ret (repairedOwnerRefs c (elems st (apis.OwnerReferences n))).2, st') ∧
    nodes st' = <[p := apis.setOwnerReferences s' n]> (nodes st) ∧
    elems st' s' = (repairedOwnerRefs c (elems st (apis.OwnerReferences n))).1 ∧
    workqueue st' = workqueue st ∧
    storeWrites (trace st') = storeWrites (trace st) ∧
    queueCalls (trace st') = queueCalls (trace st) ∧
    length (arrays st) ≤ length (arrays st') ∧
    (∀ b, array (apis.OwnerReferences n) ≠ Some b → b < length (arrays st) →
          arrays st' !! b = arrays st !! b) ∧
    (∀ b, array s' = Some b →
          array (apis.OwnerReferences n) = Some b ∨ length (arrays st) ≤ b) ∧
    wfSlice st' s'.
Proof.
  intros Hn Hwf.
  destruct (isOwnerRefsUpdateRequired_run c st _ Hwf)
    as (s' & st2 & Hrun & Hel & Hwf2 & Hn2 & Ht & Hq & Hlen & Hframe & Hsame & _ & _ & Hfresh).
  unfold syncOwnerRefs.
  rewrite (bind_Ret _ _ _ _ _ (loadNode_Ret _ _ _ Hn)).
  rewrite (bind_Ret _ _ _ _ _ Hrun). cbv beta iota.
  destruct (repairedOwnerRefs c (elems st (apis.OwnerReferences n))).2 eqn:Hdirty.
  - assert (nodes st2 !! p = Some n) as Hn' by (by rewrite Hn2).
    rewrite (bind_Ret _ _ _ _ _ (loadNode_Ret _ _ _ Hn')).
    erewrite bind_Ret by reflexivity.
    erewrite bind_Ret by reflexivity.
    erewrite bind_Ret by (by apply setField_Ret).
    eexists _, s'. split; [reflexivity|]. simpl.
    rewrite Hn2, Ht, Hq, storeWrites_app, queueCalls_app. simpl.
    rewrite !app_nil_r. by split_and!.
  - destruct (Hsame eq_refl) as [-> ->].
    exists st, (apis.OwnerReferences n). split; [done|].
    rewrite setOwnerReferences_id, list_insert_id by done.
    by split_and!.
Qed.

Lemma syncDevices_run st p n devices u :
  nodes st !! p = Some n →
  syncDevices (Some p) devices u st =
    if equality.SemanticDeepEqual (apis.Devices n) devices then (Ret u, st)
    else (Ret true,
          setNodes (<[p := apis.setDevices devices n]> (nodes st))
            (emit (Klog Info
               "device node controller: node devices updated current=%+v, required=%+v"
               [ADevices (apis.Devices n); ADevices devices]) st)).
Proof.
  intros Hn. unfold syncDevices.
  rewrite (bind_Ret _ _ _ _ _ (loadNode_Ret _ _ _ Hn)).
  destruct (equality.SemanticDeepEqual (apis.Devices n) devices); [done|].
  simpl. erewrite bind_Ret by reflexivity.
  erewrite bind_Ret by (by apply setField_Ret). done.
Qed.

Lemma updateNodeObject_run c namespace name st p n devices :
  nodes st !! p = Some n → wfSlice st (apis.OwnerReferences n) →
  let rep := repairedOwnerRefs c (elems st (apis.OwnerReferences n)) in
  let same := equality.SemanticDeepEqual (apis.Devices n) devices in
  let dirty := rep.2 || negb same in
  ∃ st' n',
    updateNodeObject c namespace name (Some p) devices st
      = (Ret (if dirty then updateError namespace name (UpdateResult c namespace n' rep.1)
              else None), st') ∧
    nodes st' = <[p := n']> (nodes st) ∧
    elems st' (apis.OwnerReferences n') = rep.1 ∧
    apis.Devices n' = (if same then apis.Devices n else devices) ∧
    sameButOwnerRefsAndDevices n n' ∧
    workqueue st' = workqueue st ∧
    storeWrites (trace st')
      = storeWrites (trace st) ++ (if dirty then [KubeUpdate namespace n' rep.1] else []) ∧
    queueCalls (trace st') = queueCalls (trace st) ∧
    length (arrays st) ≤ length (arrays st') ∧
    (∀ b, array (apis.OwnerReferences n) ≠ Some b → b < length (arrays st) →
          arrays st' !! b = arrays st !! b) ∧
    (∀ b, array (apis.OwnerReferences n') = Some b →
          array (apis.OwnerReferences n) = Some b ∨ length (arrays st) ≤ b) ∧
    wfSlice st' (apis.OwnerReferences n').
Proof.
  intros Hn Hwf rep same dirty. subst same dirty.
  destruct (syncOwnerRefs_run c st p n Hn Hwf)
    as (st2 & s' & Hrun & Hn2 & Hel & Hq & Hw & Hqc & Hlen & Hframe & Hfresh & Hwf2).
  fold rep in Hrun, Hel.
  pose proof (lookup_lt_Some _ _ _ Hn) as Hplt.
  assert (nodes st2 !! p = Some (apis.setOwnerReferences s' n)) as Hp2
    by (rewrite Hn2; by apply list_lookup_insert_eq).
  pose proof (syncDevices_run st2 p _ devices rep.2 Hp2) as Hdev.
  change (apis.Devices (apis.setOwnerReferences s' n)) with (apis.Devices n) in Hdev.
  unfold updateNodeObject. rewrite (bind_Ret _ _ _ _ _ Hrun).
  destruct (equality.SemanticDeepEqual (apis.Devices n) devices) eqn:Hsame;
    rewrite (bind_Ret _ _ _ _ _ Hdev); clear Hdev.
  - rewrite orb_false_r. destruct rep.2.
    + simpl. erewrite bind_Ret by (by apply snapshot_Ret).
      cbv beta iota. erewrite bind_Ret by reflexivity.
      unfold nodebuilder.Update.
      erewrite bind_Ret;
        [|erewrite bind_Ret by (by apply snapshot_Ret); cbv beta iota;
          erewrite bind_Ret by reflexivity; reflexivity].
      simpl. rewrite !elems_emit, Hel.
      destruct (UpdateResult c namespace (apis.setOwnerReferences s' n) rep.1)
        eqn:Hres; eexists _, (apis.setOwnerReferences s' n); rewrite Hres;
        (split; [reflexivity|]); simpl;
        rewrite ?storeWrites_app, ?queueCalls_app; simpl;
        rewrite ?app_nil_r, Hw, Hqc; by split_and!.
    + simpl. exists st2, (apis.setOwnerReferences s' n).
      rewrite app_nil_r. by split_and!.
  - rewrite orb_true_r. simpl.
    set (n3 := apis.setDevices devices (apis.setOwnerReferences s' n)).
    erewrite bind_Ret;
      [|apply snapshot_Ret; simpl; apply list_lookup_insert_eq;
        rewrite Hn2, length_insert; exact Hplt].
    cbv beta iota. erewrite bind_Ret by reflexivity.
    unfold nodebuilder.Update.
    erewrite bind_Ret;
      [|erewrite bind_Ret;
        [|apply snapshot_Ret; simpl; apply list_lookup_insert_eq;
          rewrite Hn2, length_insert; exact Hplt];
        cbv beta iota; erewrite bind_Ret by reflexivity; reflexivity].
    simpl. rewrite !elems_emit, !elems_setNodes, !elems_emit, Hel.
    destruct (UpdateResult c namespace n3 rep.1) eqn:Hres;
      eexists _, n3; rewrite Hres;
      (split; [reflexivity|]); simpl;
      rewrite ?storeWrites_app, ?queueCalls_app; simpl;
      rewrite ?app_nil_r, Hw, Hqc, Hn2, list_insert_insert_eq; by split_and!.
Qed.

(** ** A whole pass of syncNode, case by case *)

(** The lister fails with an error other than not-found. *)
Lemma syncNode_lister_failed c namespace name st e :
  (NodeLister c namespace name).2 = Some e → IsNotFound e = false →
  syncNode c namespace name st = (Ret (Some e), emit (ListerGet namespace name) st).
Proof.
  intros He Hnf. unfold syncNode, listerGet.
  destruct (NodeLister c namespace name) as [p err]. simpl in He. subst err.
  unfold mbind, Go_bind. simpl. by rewrite Hnf.
Qed.

(** The provider fails. *)
Lemma syncNode_provider_failed c namespace name st e :
  failedOtherThanNotFound (NodeLister c namespace name).2 = false →
  cachedValid c namespace name st →
  (GetDiskDetailsResult c).2 = Some e →
  ∃ st',
    syncNode c namespace name st = (Ret (Some e), st') ∧
    preserved st st' ∧ workqueue st' = workqueue st ∧
    storeWrites (trace st') = storeWrites (trace st) ∧
    queueCalls (trace st') = queueCalls (trace st).
Proof.
  intros Hfail Hvalid He. unfold syncNode, listerGet, listDeviceNames.
  unfold cachedValid in Hvalid.
  destruct (NodeLister c namespace name) as [p err]. simpl in Hfail, Hvalid.
  destruct (GetDiskDetailsResult c) as [ds err']. simpl in He. subst err'.
  erewrite bind_Ret by reflexivity. cbv beta iota. rewrite Hfail.
  destruct p as [a|].
  - destruct (Hvalid a eq_refl) as (n & Hn & Hwf).
    destruct (DeepCopy_run (emit (ListerGet namespace name) st) a n Hn Hwf)
      as (st1 & s1 & Hcopy & Hn1 & [extra Harr] & Ht1 & Hq1 & _).
    rewrite (bind_Ret _ _ _ _ _ Hcopy).
    erewrite bind_Ret by reflexivity. cbv beta iota.
    eexists. split; [reflexivity|]. simpl.
    rewrite Ht1, Hq1. simpl.
    rewrite !storeWrites_app, !queueCalls_app. simpl. rewrite !app_nil_r.
    split_and!; try done. split.
    + intros b m Hb. simpl. rewrite Hn1. by apply lookup_app_l_Some.
    + intros b xs Hb. simpl. rewrite Harr. by apply lookup_app_l_Some.
  - erewrite bind_Ret by reflexivity.
    erewrite bind_Ret by reflexivity. cbv beta iota.
    eexists. split; [reflexivity|]. simpl.
    rewrite !storeWrites_app, !queueCalls_app. simpl. rewrite !app_nil_r.
    split_and!; try done.
Qed.

(** What the create branch does. *)
Lemma createNode_run c namespace name devices st :
  let n := builtNode namespace name devices (mkSlice (Some (length (arrays st))) 1 1) in
  let res := CreateResult c namespace n [ownerRef c] in
  createNode c namespace name devices st =
    (Ret (createError namespace name res),
     mkState (nodes st ++ [n]) (arrays st ++ [[ownerRef c]]) (workqueue st)
       (trace st ++
        [Klog Info "device node controller: creating new node object for %+v"
           [ANode n [ownerRef c]];
         KubeCreate namespace n [ownerRef c]] ++
        match res with
        | Some _ => []
        | None => [Klog Info "device node controller: created node object %s/%s"
                     [AString namespace; AString name]]
        end)).
Proof.
  intros n res. unfold createNode.
  erewrite bind_Ret by reflexivity. cbv beta iota.
  set (st1 := mkState (nodes st ++ [n]) (arrays st ++ [[ownerRef c]])
                (workqueue st) (trace st)).
  assert (nodes st1 !! length (nodes st) = Some n) as Hn
    by (by apply list_lookup_middle).
  assert (elems st1 (apis.OwnerReferences n) = [ownerRef c]) as Hel.
  { unfold elems, backing. simpl. by rewrite list_lookup_middle. }
  change (setNodes _ _) with st1.
  rewrite (bind_Ret _ _ _ _ _ (snapshot_Ret _ _ _ Hn)). rewrite Hel.
  cbv beta iota. erewrite bind_Ret by reflexivity.
  unfold nodebuilder.Create.
  erewrite bind_Ret;
    [|erewrite bind_Ret by (by apply snapshot_Ret); rewrite elems_emit, Hel;
      cbv beta iota; erewrite bind_Ret by reflexivity; reflexivity].
  subst res. destruct (CreateResult c namespace n [ownerRef c]);
    unfold mbind, Go_bind; simpl; unfold emit, st1; simpl;
    by rewrite <- ?app_assoc.
Qed.

(** No cached record, and the provider answers. *)
Lemma syncNode_absent c namespace name st devices :
  (NodeLister c namespace name).1 = None →
  failedOtherThanNotFound (NodeLister c namespace name).2 = false →
  GetDiskDetailsResult c = (devices, None) →
  let n := builtNode namespace name devices (mkSlice (Some (length (arrays st))) 1 1) in
  let res := CreateResult c namespace n [ownerRef c] in
  syncNode c namespace name st =
    (Ret (createError namespace name res),
     mkState (nodes st ++ [n]) (arrays st ++ [[ownerRef c]]) (workqueue st)
       (trace st ++
        [ListerGet namespace name; GetDiskDetails;
         Klog Info "Devices List %+v" [ADevices devices];
         Klog Info "device node controller: creating new node object for %+v"
           [ANode n [ownerRef c]];
         KubeCreate namespace n [ownerRef c]] ++
        match res with
        | Some _ => []
        | None => [Klog Info "device node controller: created node object %s/%s"
                     [AString namespace; AString name]]
        end)).
Proof.
  intros Hnil Hfail Hdev n res. unfold syncNode, listerGet, listDeviceNames.
  destruct (NodeLister c namespace name) as [p err]. simpl in Hnil, Hfail. subst p.
  rewrite Hdev. unfold mbind, Go_bind. simpl. rewrite Hfail. simpl.
  rewrite createNode_run. simpl. fold n. fold res.
  by rewrite <- !app_assoc.
Qed.

(** A cached record exists, and the provider answers. *)
Lemma syncNode_existing c namespace name st a n devices :
  (NodeLister c namespace name).1 = Some a →
  failedOtherThanNotFound (NodeLister c namespace name).2 = false →
  nodes st !! a = Some n → wfSlice st (apis.OwnerReferences n) →
  GetDiskDetailsResult c = (devices, None) →
  let rep := repairedOwnerRefs c (elems st (apis.OwnerReferences n)) in
  let same := equality.SemanticDeepEqual (apis.Devices n) devices in
  let dirty := rep.2 || negb same in
  ∃ st' n',
    syncNode c namespace name st
      = (Ret (if dirty then updateError namespace name (UpdateResult c namespace n' rep.1)
              else None), st') ∧
    preserved st st' ∧
    nodes st' = nodes st ++ [n'] ∧
    elems st' (apis.OwnerReferences n') = rep.1 ∧
    apis.Devices n' = (if same then apis.Devices n else devices) ∧
    sameButOwnerRefsAndDevices n n' ∧
    workqueue st' = workqueue st ∧
    storeWrites (trace st')
      = storeWrites (trace st) ++ (if dirty then [KubeUpdate namespace n' rep.1] else []) ∧
    queueCalls (trace st') = queueCalls (trace st) ∧
    (∀ b, array (apis.OwnerReferences n') = Some b → length (arrays st) ≤ b) ∧
    wfSlice st' (apis.OwnerReferences n').
Proof.
  intros Ha Hfail Hn Hwf Hdev rep same dirty.
  destruct (DeepCopy_run (emit (ListerGet namespace name) st) a n Hn Hwf)
    as (st1 & s1 & Hcopy & Hn1 & [extra Harr] & Ht1 & Hq1 & Hwf1 & Hel1 & Hfresh).
  simpl in Hn1, Harr, Ht1, Hq1, Hfresh. rewrite elems_emit in Hel1.
  set (st2 := emit (Klog Info "Devices List %+v" [ADevices devices])
                (emit GetDiskDetails st1)).
  assert (nodes st2 !! length (nodes st) = Some (apis.setOwnerReferences s1 n)) as Hp.
  { simpl. rewrite Hn1. by apply list_lookup_middle. }
  destruct (updateNodeObject_run c namespace name st2 _ _ devices Hp Hwf1)
    as (st' & n' & Hrun & Hn' & Hel' & Hdevs & Hsame & Hq' & Hw' & Hqc' & Hlen' & Hframe & Hfr' & Hwf').
  simpl in Hrun, Hel', Hdevs, Hw', Hq', Hqc', Hlen', Hframe, Hn'.
  change (elems st2 s1) with (elems st1 s1) in Hrun, Hel', Hw'.
  rewrite Hel1 in Hrun, Hel', Hw'. fold rep same dirty in Hrun, Hw'.
  fold rep in Hel'. fold same in Hdevs.
  change (sameButOwnerRefsAndDevices n n') in Hsame.
  exists st', n'. split.
  { unfold syncNode, listerGet, listDeviceNames.
    destruct (NodeLister c namespace name) as [p err]. simpl in Ha, Hfail. subst p.
    erewrite bind_Ret by reflexivity. cbv beta iota. rewrite Hfail.
    rewrite (bind_Ret _ _ _ _ _ Hcopy), Hdev.
    erewrite bind_Ret by reflexivity. cbv beta iota.
    erewrite bind_Ret by reflexivity. exact Hrun. }
  assert (nodes st' = nodes st ++ [n']) as Hnodes.
  { rewrite Hn', Hn1. rewrite insert_app_r_alt by done.
    by rewrite Nat.sub_diag. }
  split_and!; try done.
  - split.
    + intros b m Hb. rewrite Hnodes. by apply lookup_app_l_Some.
    + intros b xs Hb. pose proof (lookup_lt_Some _ _ _ Hb) as Hblt.
      rewrite Hframe.
      * rewrite Harr. by apply lookup_app_l_Some.
      * intros Heq. apply Hfresh in Heq. lia.
      * rewrite Harr, length_app. lia.
  - by rewrite Hq', Hq1.
  - rewrite Hw', Ht1. simpl. rewrite !storeWrites_app. simpl.
    by rewrite !app_nil_r.
  - rewrite Hqc', Ht1. simpl. rewrite !queueCalls_app. simpl.
    by rewrite !app_nil_r.
  - intros b Hb. destruct (Hfr' b Hb) as [Hb'|Hb'].
    + by apply Hfresh.
    + simpl in Hb'. rewrite Harr, length_app in Hb'. lia.
Qed.

(** Every pass from a valid cache answer returns, leaves the objects of the
    heap as they were, makes no call on the work queue and at most one
    store write; an update carries the working copy of the cached record. *)
Lemma syncNode_cases c namespace name st :
  cachedValid c namespace name st →
  ∃ r st' w,
    syncNode c namespace name st = (Ret r, st') ∧
    preserved st st' ∧ workqueue st' = workqueue st ∧
    queueCalls (trace st') = queueCalls (trace st) ∧
    storeWrites (trace st') = storeWrites (trace st) ++ w ∧
    length w ≤ 1 ∧
    (∀ ns' n' refs', KubeUpdate ns' n' refs' ∈ w →
       ns' = namespace ∧
       ∃ a n, (NodeLister c namespace name).1 = Some a ∧
              nodes st !! a = Some n ∧
              sameButOwnerRefsAndDevices n n' ∧
              nodes st' !! length (nodes st) = Some n' ∧
              refs' = elems st' (apis.OwnerReferences n') ∧
              (∀ b, array (apis.OwnerReferences n') = Some b → length (arrays st) ≤ b)).
Proof.
  intros Hvalid.
  destruct (failedOtherThanNotFound (NodeLister c namespace name).2) eqn:Hfail.
  - destruct (NodeLister c namespace name).2 as [e|] eqn:He; [|done].
    simpl in Hfail. apply negb_true_iff in Hfail.
    exists (Some e), (emit (ListerGet namespace name) st), [].
    rewrite (syncNode_lister_failed c namespace name st e He Hfail). simpl.
    rewrite storeWrites_app, queueCalls_app. simpl. rewrite !app_nil_r.
    split_and!; try done; try lia;
      try (intros ? ? ? Hin; by apply elem_of_nil in Hin).
  - destruct (GetDiskDetailsResult c) as [devices [e|]] eqn:Hdev.
    + destruct (syncNode_provider_failed c namespace name st e Hfail Hvalid)
        as (st' & Hrun & Hpre & Hq & Hw & Hqc); [by rewrite Hdev|].
      exists (Some e), st', []. rewrite app_nil_r.
      split_and!; try done; try (simpl; lia);
        try (intros ? ? ? Hin; by apply elem_of_nil in Hin).
    + destruct (NodeLister c namespace name).1 as [a|] eqn:Ha.
      * destruct (Hvalid a Ha) as (n & Hn & Hwf).
        destruct (syncNode_existing c namespace name st a n devices Ha Hfail Hn Hwf Hdev)
          as (st' & n' & Hrun & Hpre & Hnodes & Hel & _ & Hsame & Hq & Hw & Hqc & Hfresh & _).
        eexists _, st', _. split; [exact Hrun|].
        split; [exact Hpre|]. split; [exact Hq|]. split; [exact Hqc|].
        split; [exact Hw|]. split; [case_match; simpl; lia|].
        intros ns' m refs' Hin. case_match; [|by apply elem_of_nil in Hin].
        apply list_elem_of_singleton in Hin. injection Hin as -> -> ->.
        split; [done|]. exists a, n. split_and!; try done.
        rewrite Hnodes. by apply list_lookup_middle.
      * pose proof (syncNode_absent c namespace name st devices Ha Hfail Hdev) as Hrun.
        simpl in Hrun. eexists _, _, _. split; [exact Hrun|]. simpl.
        rewrite !storeWrites_app, !queueCalls_app. simpl.
        split_and!.
        -- split; intros ? ? ?; simpl; by apply lookup_app_l_Some.
        -- done.
        -- case_match; simpl; by rewrite app_nil_r.
        -- case_match; simpl; reflexivity.
        -- done.
        -- intros ? ? ? Hin. apply list_elem_of_singleton in Hin. done.
Qed.

(** ** Keys, handlers and the worker *)

Lemma syncHandler_invalid c key st :
  is_Some (cache.SplitMetaNamespaceKey key).2 →
  syncHandler c key st =
    (Ret None, emit (HandleError (Errorf "invalid resource key: %s" [AString key])) st).
Proof.
  intros [e He]. unfold syncHandler.
  destruct (cache.SplitMetaNamespaceKey key) as [[ns nm] err]. simpl in He.
  by subst err.
Qed.

Lemma syncHandler_valid c key st :
  (cache.SplitMetaNamespaceKey key).2 = None →
  syncHandler c key st =
    syncNode c (cache.SplitMetaNamespaceKey key).1.1
      (cache.SplitMetaNamespaceKey key).1.2 st.
Proof.
  intros He. unfold syncHandler.
  destruct (cache.SplitMetaNamespaceKey key) as [[ns nm] err]. simpl in He.
  by subst err.
Qed.

(** syncHandler returns, keeps the heap objects and stays away from the
    work queue. *)
Lemma syncHandler_cases c key st :
  keyValid c key st →
  ∃ r st',
    syncHandler c key st = (Ret r, st') ∧
    preserved st st' ∧ workqueue st' = workqueue st ∧
    queueCalls (trace st') = queueCalls (trace st).
Proof.
  intros Hvalid.
  destruct (cache.SplitMetaNamespaceKey key).2 as [e|] eqn:He.
  - rewrite syncHandler_invalid by (by rewrite He).
    eexists _, _. split; [reflexivity|]. simpl.
    rewrite queueCalls_app. simpl. rewrite app_nil_r.
    by split_and!.
  - rewrite (syncHandler_valid _ _ _ He).
    destruct (syncNode_cases c _ _ st Hvalid)
      as (r & st' & w & Hrun & Hpre & Hq & Hqc & _).
    by exists r, st'.
Qed.

(** The worker on a string item, given what syncHandler does with it. *)
Lemma processNextWorkItem_string c st key q r st1 :
  workqueue st = OString key :: q →
  syncHandler c key (afterGet q st) = (Ret r, st1) →
  processNextWorkItem c st =
    (Ret true,
     match r with
     | Some e =>
         emit (HandleError (Errorf "error syncing '%s': %s, requeuing"
                              [AString key; AErrorText e]))
           (emit (QueueDone (OString key))
              (emit (QueueAddRateLimited (OString key)) st1))
     | None =>
         emit (QueueDone (OString key))
           (emit (Klog Info "Successfully synced '%s'" [AString key])
              (emit (QueueForget (OString key)) st1))
     end).
Proof.
  intros Hq Hsync. unfold processNextWorkItem, workqueueGet.
  unfold mbind at 1, Go_bind at 1. rewrite Hq. cbv beta iota.
  fold (afterGet q st). unfold processItem, defer.
  unfold mbind at 1, Go_bind at 1.
  rewrite (bind_Ret _ _ _ _ _ Hsync). by destruct r.
Qed.

(** The worker on an item that is not a string. *)
Lemma processNextWorkItem_not_string c st o q :
  workqueue st = o :: q → isString o = false →
  processNextWorkItem c st =
    (Ret true,
     mkState (nodes st) (arrays st) q
       (trace st ++
        [QueueGet; QueueForget o;
         HandleError (Errorf "expected string in workqueue but got %#v" [AObj o]);
         QueueDone o])).
Proof.
  intros Hq Hns. unfold processNextWorkItem, workqueueGet.
  unfold mbind at 1, Go_bind at 1. rewrite Hq. cbv beta iota.
  destruct o; try done; unfold processItem, defer, mbind, Go_bind; simpl;
    unfold emit; simpl; by rewrite <- !app_assoc.
Qed.

Lemma enqueueNode_run c st p n :
  nodes st !! p = Some n →
  enqueueNode c (Some p) st =
    (Ret tt,
     emit (if bool_decide (apis.Namespace n = DeviceNamespace c ∧
                           apis.Name n = NodeID c)
           then QueueAdd (OString (cache.MetaNamespaceKeyFunc n).1)
           else Klog Warning "skipping device node object %s/%s"
                  [AString (apis.Namespace n); AString (apis.Name n)]) st).
Proof.
  intros Hn. unfold enqueueNode.
  rewrite (bind_Ret _ _ _ _ _ (loadNode_Ret _ _ _ Hn)).
  unfold cache.MetaNamespaceKeyFunc.
  repeat case_bool_decide; simpl; try done; tauto.
Qed.

(** One round of the worker on a queued item. *)
Lemma processNextWorkItem_cases c st o q :
  workqueue st = o :: q →
  (∀ key, o = OString key → keyValid c key st) →
  ∃ st' calls,
    processNextWorkItem c st = (Ret true, st') ∧
    workqueue st' = q ∧ preserved st st' ∧
    queueCalls (trace st') = queueCalls (trace st) ++ calls ∧
    (∀ key e, o = OString key →
       (syncHandler c key (afterGet q st)).1 = Ret (Some e) →
       calls = [QueueAddRateLimited o; QueueDone o]) ∧
    (∀ key, o = OString key →
       (syncHandler c key (afterGet q st)).1 = Ret None →
       calls = [QueueForget o; QueueDone o]) ∧
    (isString o = false → calls = [QueueForget o; QueueDone o]).
Proof.
  intros Hq Hvalid. destruct (isString o) eqn:Hs.
  - destruct o as [|key| | |]; try done.
    destruct (syncHandler_cases c key (afterGet q st) (Hvalid key eq_refl))
      as (r & st1 & Hrun & Hpre & Hq1 & Hqc).
    rewrite (processNextWorkItem_string c st key q r st1 Hq Hrun).
    simpl in Hq1, Hqc. rewrite queueCalls_app in Hqc. simpl in Hqc.
    rewrite app_nil_r in Hqc.
    destruct r as [e|].
    + exists (emit (HandleError (Errorf "error syncing '%s': %s, requeuing"
                                   [AString key; AErrorText e]))
                (emit (QueueDone (OString key))
                   (emit (QueueAddRateLimited (OString key)) st1))),
        [QueueAddRateLimited (OString key); QueueDone (OString key)].
      simpl. rewrite !queueCalls_app, Hqc. simpl.
      rewrite app_nil_r, <- app_assoc. split_and!; try done.
      intros key0 [= <-] Hr. by rewrite Hrun in Hr.
    + exists (emit (QueueDone (OString key))
                (emit (Klog Info "Successfully synced '%s'" [AString key])
                   (emit (QueueForget (OString key)) st1))),
        [QueueForget (OString key); QueueDone (OString key)].
      simpl. rewrite !queueCalls_app, Hqc. simpl.
      rewrite app_nil_r, <- app_assoc. split_and!; try done.
      intros key0 e [= <-] Hr. by rewrite Hrun in Hr.
  - rewrite (processNextWorkItem_not_string c st o q Hq Hs).
    eexists _, [QueueForget o; QueueDone o]. split; [reflexivity|]. simpl.
    rewrite queueCalls_app. simpl. split_and!; try done.
    intros key e ->. done.
Qed.

Lemma wfSlice_preserved st st' s :
  preserved st st' → wfSlice st s → wfSlice st' s.
Proof.
  intros [_ Harr] [Hle Hs]. split; [done|].
  destruct (array s) as [a|]; [|done].
  destruct Hs as (xs & Hxs & Hcap). exists xs. split; [by apply Harr|done].
Qed.

Lemma keyValid_preserved c key st st' :
  preserved st st' → keyValid c key st → keyValid c key st'.
Proof.
  intros Hpre Hvalid a Ha. destruct (Hvalid a Ha) as (n & Hn & Hwf).
  exists n. split; [by apply Hpre|by eapply wfSlice_preserved].
Qed.

(** The worker loop takes the items of the queue one by one, whatever the
    passes answer, and ends when the queue is used up. *)
Lemma runWorker_drains c q :
  ∀ st, workqueue st = q →
        (∀ key, OString key ∈ q → keyValid c key st) →
        ∃ st', runWorker (S (length q)) c st = (Ret tt, st') ∧
               workqueue st' = [] ∧ preserved st st'.
Proof.
  induction q as [|o q IH]; intros st Hq Hvalid.
  - exists (emit QueueGet st). cbn [runWorker length].
    unfold processNextWorkItem, workqueueGet, mbind, Go_bind. rewrite Hq.
    by split_and!.
  - destruct (processNextWorkItem_cases c st o q Hq) as (st1 & calls & Hrun & Hq1 & Hpre & _).
    { intros key ->. apply Hvalid. by left. }
    destruct (IH st1 Hq1) as (st' & Hloop & Hq' & Hpre').
    { intros key Hin. apply (keyValid_preserved c key st st1 Hpre).
      apply Hvalid. by right. }
    exists st'. split_and!; [|done|by eapply preserved_trans].
    change (runWorker (S (length (o :: q))) c st)
      with ((processNextWorkItem c ≫= λ more : bool,
               if more then runWorker (S (length q)) c else mret tt) st).
    by rewrite (bind_Ret _ _ _ _ _ Hrun).
Qed.

(** ** Owner references that need no repair *)

Lemma NoDup_fmap_elem_eq {A B} (f : A → B) (l : list A) x y :
  NoDup (f <$> l) → x ∈ l → y ∈ l → f x = f y → x = y.
Proof.
  intros Hnd Hx Hy Hf.
  apply list_elem_of_lookup in Hx as [i Hi].
  apply list_elem_of_lookup in Hy as [j Hj].
  assert ((f <$> l) !! i = Some (f x)) as Hi' by (by rewrite list_lookup_fmap, Hi).
  assert ((f <$> l) !! j = Some (f x)) as Hj'
    by (by rewrite list_lookup_fmap, Hj, Hf).
  pose proof (NoDup_lookup _ _ _ _ Hnd Hi' Hj') as ->. congruence.
Qed.

(** When the first entry with the required UID carries the required
    controller flag, the repair changes nothing. *)
Lemma repairedOwnerRefs_first_ok c refs pre r post :
  refs = pre ++ r :: post →
  Forall (λ x, metav1.UID x ≠ metav1.UID (ownerRef c)) pre →
  metav1.UID r = metav1.UID (ownerRef c) →
  metav1.Controller r = metav1.Controller (ownerRef c) →
  repairedOwnerRefs c refs = (refs, false).
Proof.
  intros -> Hpre Hr Hctl. unfold repairedOwnerRefs.
  assert (list_find (hasOwnerUID c) (pre ++ r :: post) = Some (length pre, r)) as ->.
  { apply list_find_Some. split_and!.
    - by apply list_lookup_middle.
    - done.
    - intros j y Hy Hj. rewrite lookup_app_l in Hy by done.
      rewrite Forall_lookup in Hpre. by apply (Hpre j y). }
  by rewrite decide_True.
Qed.

(** The same under the invariant of the data model: no two entries share a
    UID, and an entry with the required UID and flag is present. *)
Lemma repairedOwnerRefs_present c refs :
  NoDup (metav1.UID <$> refs) →
  (∃ r, r ∈ refs ∧ metav1.UID r = metav1.UID (ownerRef c) ∧
        metav1.Controller r = metav1.Controller (ownerRef c)) →
  repairedOwnerRefs c refs = (refs, false).
Proof.
  intros Hnd (r & Hin & Hr & Hctl). unfold repairedOwnerRefs.
  destruct (list_find (hasOwnerUID c) refs) as [[k r0]|] eqn:Hfind.
  - apply list_find_Some in Hfind as (Hk & Hr0 & _).
    assert (r0 = r) as ->.
    { apply (NoDup_fmap_elem_eq metav1.UID refs); [done| |done|].
      - apply list_elem_of_lookup. by exists k.
      - unfold hasOwnerUID in Hr0. congruence. }
    by rewrite decide_True.
  - apply list_find_None in Hfind. rewrite Forall_forall in Hfind.
    by destruct (Hfind r Hin).
Qed.

(** * The claims *)

(** C1. In syncNode with a cached record, the devices of the working copy
    are compared with the provider's list without regard to order.  When
    the cached devices are a permutation of the list, the comparison finds
    them equal, the copy keeps its devices and an update is submitted only
    if the owner references needed repair.  When the two differ as sets,
    the copy's devices become the provider's list as it is, and that copy
    is submitted as the update. *)
Theorem syncNode_devices_comparison c namespace name st a n devices :
  (NodeLister c namespace name).1 = Some a →
  failedOtherThanNotFound (NodeLister c namespace name).2 = false →
  nodes st !! a = Some n → wfSlice st (apis.OwnerReferences n) →
  GetDiskDetailsResult c = (devices, None) →
  ∃ r st' n',
    syncNode c namespace name st = (Ret r, st') ∧
    nodes st' = nodes st ++ [n'] ∧
    (apis.Devices n ≡ₚ devices →
       equality.SemanticDeepEqual (apis.Devices n) devices = true ∧
       apis.Devices n' = apis.Devices n ∧
       storeWrites (trace st') =
         storeWrites (trace st) ++
         (if (repairedOwnerRefs c (elems st (apis.OwnerReferences n))).2
          then [KubeUpdate namespace n' (elems st' (apis.OwnerReferences n'))]
          else [])) ∧
    (¬ (∀ d, d ∈ apis.Devices n ↔ d ∈ devices) →
       equality.SemanticDeepEqual (apis.Devices n) devices = false ∧
       apis.Devices n' = devices ∧
       storeWrites (trace st') =
         storeWrites (trace st) ++
         [KubeUpdate namespace n' (elems st' (apis.OwnerReferences n'))]).
Proof.
  intros Ha Hfail Hn Hwf Hdev.
  destruct (syncNode_existing c namespace name st a n devices Ha Hfail Hn Hwf Hdev)
    as (st' & n' & Hrun & _ & Hnodes & Hel & Hdevs & _ & _ & Hw & _).
  eexists _, st', n'. split; [exact Hrun|]. split; [exact Hnodes|]. split.
  - intros Hperm. apply Permutation_SemanticDeepEqual in Hperm.
    rewrite Hperm in Hdevs, Hw. rewrite orb_false_r in Hw.
    by rewrite Hel.
  - intros Hdiff. apply SemanticDeepEqual_differ in Hdiff.
    rewrite Hdiff in Hdevs, Hw. rewrite orb_true_r in Hw.
    by rewrite Hel.
Qed.

(** C2. Idempotence.  When the first owner reference of the cached record
    that carries the UID of the required owner also carries its controller
    flag, and the comparison finds the cached devices equal to the
    provider's list, syncNode makes no create and no update call and
    returns nil.  Entries after that first one are not looked at, whatever
    their UID and flag. *)
Theorem syncNode_idempotent c namespace name st a n devices :
  (NodeLister c namespace name).1 = Some a →
  failedOtherThanNotFound (NodeLister c namespace name).2 = false →
  nodes st !! a = Some n → wfSlice st (apis.OwnerReferences n) →
  GetDiskDetailsResult c = (devices, None) →
  (∃ pre r post,
     elems st (apis.OwnerReferences n) = pre ++ r :: post ∧
     Forall (λ x, metav1.UID x ≠ metav1.UID (ownerRef c)) pre ∧
     metav1.UID r = metav1.UID (ownerRef c) ∧
     metav1.Controller r = metav1.Controller (ownerRef c)) →
  equality.SemanticDeepEqual (apis.Devices n) devices = true →
  ∃ st',
    syncNode c namespace name st = (Ret None, st') ∧
    storeWrites (trace st') = storeWrites (trace st).
Proof.
  intros Ha Hfail Hn Hwf Hdev (pre & r & post & Hrefs & Hpre & Hr & Hctl) Hsame.
  destruct (syncNode_existing c namespace name st a n devices Ha Hfail Hn Hwf Hdev)
    as (st' & n' & Hrun & _ & _ & _ & _ & _ & _ & Hw & _).
  rewrite (repairedOwnerRefs_first_ok c _ pre r post Hrefs Hpre Hr Hctl), Hsame
    in Hrun, Hw.
  simpl in Hrun, Hw. rewrite app_nil_r in Hw. by exists st'.
Qed.

(** C3. Create on absence.  When the lister finds no record (not-found)
    and the provider answers, syncNode makes exactly one store write, a
    create, of a record with the namespace and name of the key, the
    provider's devices and the required owner reference as its only owner
    reference.  When the create succeeds the pass is over: the only call
    after it is the log line. *)
Theorem syncNode_create_on_absence c namespace name st devices :
  (NodeLister c namespace name).1 = None →
  failedOtherThanNotFound (NodeLister c namespace name).2 = false →
  GetDiskDetailsResult c = (devices, None) →
  ∃ r st' n,
    syncNode c namespace name st = (Ret r, st') ∧
    storeWrites (trace st') =
      storeWrites (trace st) ++ [KubeCreate namespace n [ownerRef c]] ∧
    apis.Namespace n = namespace ∧ apis.Name n = name ∧
    apis.Devices n = devices ∧
    nodes st' !! length (nodes st) = Some n ∧
    elems st' (apis.OwnerReferences n) = [ownerRef c] ∧
    r = createError namespace name (CreateResult c namespace n [ownerRef c]) ∧
    (CreateResult c namespace n [ownerRef c] = None →
       r = None ∧
       trace st' =
         trace st ++
         [ListerGet namespace name; GetDiskDetails;
          Klog Info "Devices List %+v" [ADevices devices];
          Klog Info "device node controller: creating new node object for %+v"
            [ANode n [ownerRef c]];
          KubeCreate namespace n [ownerRef c];
          Klog Info "device node controller: created node object %s/%s"
            [AString namespace; AString name]]).
Proof.
  intros Ha Hfail Hdev.
  pose proof (syncNode_absent c namespace name st devices Ha Hfail Hdev) as Hrun.
  simpl in Hrun.
  eexists _, _,
    (builtNode namespace name devices (mkSlice (Some (length (arrays st))) 1 1)).
  split; [exact Hrun|]. simpl.
  split_and!; try reflexivity.
  - rewrite storeWrites_app. f_equal. simpl. by case_match.
  - by apply list_lookup_middle.
  - unfold elems, backing. simpl. by rewrite list_lookup_middle.
  - intros Hres. rewrite Hres. done.
Qed.

(** C5. Foreign keys are rejected.  enqueueNode puts the key of a node on
    the work queue when the node's namespace is the configured device
    namespace and its name the local node identifier; for any other node
    it makes no call on the queue and only logs a warning.  The same then
    holds for the three event handlers, which pass their node on to
    enqueueNode. *)
Theorem enqueueNode_foreign_key_rejected c st p n :
  nodes st !! p = Some n →
  (apis.Namespace n = DeviceNamespace c ∧ apis.Name n = NodeID c →
     enqueueNode c (Some p) st =
       (Ret tt, emit (QueueAdd (OString (cache.MetaNamespaceKeyFunc n).1)) st)) ∧
  (¬ (apis.Namespace n = DeviceNamespace c ∧ apis.Name n = NodeID c) →
     enqueueNode c (Some p) st =
       (Ret tt, emit (Klog Warning "skipping device node object %s/%s"
                        [AString (apis.Namespace n); AString (apis.Name n)]) st) ∧
     ∀ oldObj key,
       queueCalls (trace (enqueueNode c (Some p) st).2) = queueCalls (trace st) ∧
       queueCalls (trace (addNode c (ODeviceNode (Some p)) st).2)
         = queueCalls (trace st) ∧
       queueCalls (trace (updateNode c oldObj (ODeviceNode (Some p)) st).2)
         = queueCalls (trace st) ∧
       queueCalls (trace (deleteNode c (ODeviceNode (Some p)) st).2)
         = queueCalls (trace st) ∧
       queueCalls
         (trace (deleteNode c (ODeletedFinalStateUnknown key (ODeviceNode (Some p))) st).2)
         = queueCalls (trace st)).
Proof.
  intros Hn. split.
  - intros Hlocal. rewrite (enqueueNode_run c st p n Hn).
    by rewrite bool_decide_eq_true_2.
  - intros Hforeign.
    assert (∀ st0, nodes st0 = nodes st →
              enqueueNode c (Some p) st0 =
                (Ret tt, emit (Klog Warning "skipping device node object %s/%s"
                   [AString (apis.Namespace n); AString (apis.Name n)]) st0)) as Henq.
    { intros st0 Hst0. rewrite (enqueueNode_run c st0 p n) by (by rewrite Hst0).
      by rewrite bool_decide_eq_false_2. }
    split; [by apply Henq|]. intros oldObj key.
    unfold addNode, updateNode, deleteNode, deleteNodeFound.
    rewrite !(bind_Ret _ _ _ _ _ (loadNode_Ret _ _ _ Hn)).
    unfold mbind, Go_bind, klogInfof, call, modify. rewrite !Henq by done.
    simpl. rewrite !queueCalls_app. simpl. by rewrite !app_nil_r.
Qed.

(** C9. Tombstone recovery.  A delete notification that carries a
    tombstone with a DeviceNode inside is handled exactly like one that
    carries the DeviceNode itself; for the local node this puts its key on
    the work queue.  Any other payload is reported through HandleError and
    nothing is put on the queue. *)
Theorem deleteNode_tombstone_recovery c st :
  (∀ key p,
     deleteNode c (ODeletedFinalStateUnknown key (ODeviceNode p)) st
       = deleteNode c (ODeviceNode p) st) ∧
  (∀ key p n,
     nodes st !! p = Some n →
     apis.Namespace n = DeviceNamespace c → apis.Name n = NodeID c →
     deleteNode c (ODeletedFinalStateUnknown key (ODeviceNode (Some p))) st =
       (Ret tt,
        emit (QueueAdd (OString (cache.MetaNamespaceKeyFunc n).1))
          (emit (Klog Info "Got delete event for node %s/%s"
                   [AString (apis.Namespace n); AString (apis.Name n)]) st))) ∧
  (∀ o, deletedNode o = None →
     ∃ e, deleteNode c o st = (Ret tt, emit (HandleError e) st) ∧
          queueCalls (trace (emit (HandleError e) st)) = queueCalls (trace st)).
Proof.
  split_and!.
  - done.
  - intros key p n Hn Hns Hnm. unfold deleteNode, deleteNodeFound.
    rewrite (bind_Ret _ _ _ _ _ (loadNode_Ret _ _ _ Hn)).
    erewrite bind_Ret by reflexivity.
    rewrite (enqueueNode_run c _ p n) by done.
    by rewrite bool_decide_eq_true_2.
  - intros o Ho.
    assert (∀ e, queueCalls (trace (emit (HandleError e) st)) = queueCalls (trace st))
      as Hq.
    { intros e. simpl. rewrite queueCalls_app. simpl. by rewrite app_nil_r. }
    destruct o as [|s|p|key o'|tag]; try done; try (by eexists).
    destruct o' as [|s|p|key' o''|tag]; try done; by eexists.
Qed.

(** C6. Error containment in the worker.  For an item taken off the
    queue, processNextWorkItem returns true and makes exactly two calls on
    the queue after [Get]: when syncHandler returned an error, the key is
    added again through AddRateLimited (and not forgotten), when it
    returned nil, the item is forgotten (and not added again); the second
    call is in both cases the one and only [Done] for the item. *)
Theorem processNextWorkItem_error_containment c st o q :
  workqueue st = o :: q →
  (∀ key, o = OString key → keyValid c key st) →
  ∃ st' calls,
    processNextWorkItem c st = (Ret true, st') ∧
    workqueue st' = q ∧
    queueCalls (trace st') = queueCalls (trace st) ++ calls ∧
    (∀ key e, o = OString key →
       (syncHandler c key (afterGet q st)).1 = Ret (Some e) →
       calls = [QueueAddRateLimited o; QueueDone o]) ∧
    (∀ key, o = OString key →
       (syncHandler c key (afterGet q st)).1 = Ret None →
       calls = [QueueForget o; QueueDone o]) ∧
    (isString o = false → calls = [QueueForget o; QueueDone o]).
Proof.
  intros Hq Hvalid.
  destruct (processNextWorkItem_cases c st o q Hq Hvalid)
    as (st' & calls & Hrun & Hq' & _ & Hrest).
  by exists st', calls.
Qed.

(** C7. Malformed and invalid items are dropped.  An item that is not a
    string is forgotten, reported and marked done, and never added again.
    For a string that does not split into namespace and name, syncHandler
    reports the key and returns nil, so that the worker forgets the item
    like one that was synced and never adds it again. *)
Theorem malformed_items_dropped c st :
  (∀ o q, workqueue st = o :: q → isString o = false →
     processNextWorkItem c st =
       (Ret true,
        mkState (nodes st) (arrays st) q
          (trace st ++
           [QueueGet; QueueForget o;
            HandleError (Errorf "expected string in workqueue but got %#v" [AObj o]);
            QueueDone o]))) ∧
  (∀ key, is_Some (cache.SplitMetaNamespaceKey key).2 →
     syncHandler c key st =
       (Ret None,
        emit (HandleError (Errorf "invalid resource key: %s" [AString key])) st) ∧
     ∀ q, workqueue st = OString key :: q →
       processNextWorkItem c st =
         (Ret true,
          mkState (nodes st) (arrays st) q
            (trace st ++
             [QueueGet;
              HandleError (Errorf "invalid resource key: %s" [AString key]);
              QueueForget (OString key);
              Klog Info "Successfully synced '%s'" [AString key];
              QueueDone (OString key)]))).
Proof.
  split.
  - intros o q Hq Hs. by apply processNextWorkItem_not_string.
  - intros key Hbad. split; [by apply syncHandler_invalid|].
    intros q Hq.
    rewrite (processNextWorkItem_string c st key q None _ Hq
               (syncHandler_invalid c key _ Hbad)).
    unfold afterGet, emit. simpl. by rewrite <- !app_assoc.
Qed.

(** C8. A failed pass writes nothing.  When the lister fails with an
    error other than not-found, syncNode returns that error right after
    the lookup: nothing else is called and the heap is as before.  From a
    valid cache answer every pass returns and makes at most one store
    write, and when the provider fails its error is returned without any
    store write. *)
Theorem syncNode_failed_pass_atomic c namespace name st :
  (∀ e, (NodeLister c namespace name).2 = Some e → IsNotFound e = false →
     syncNode c namespace name st
       = (Ret (Some e), emit (ListerGet namespace name) st) ∧
     storeWrites (trace (emit (ListerGet namespace name) st))
       = storeWrites (trace st)) ∧
  (cachedValid c namespace name st →
   ∃ r st',
     syncNode c namespace name st = (Ret r, st') ∧
     (∃ w, storeWrites (trace st') = storeWrites (trace st) ++ w ∧ length w ≤ 1) ∧
     (∀ e, failedOtherThanNotFound (NodeLister c namespace name).2 = false →
        (GetDiskDetailsResult c).2 = Some e →
        r = Some e ∧ storeWrites (trace st') = storeWrites (trace st))).
Proof.
  split.
  - intros e He Hnf. split; [by apply syncNode_lister_failed|].
    simpl. rewrite storeWrites_app. simpl. by rewrite app_nil_r.
  - intros Hvalid.
    destruct (syncNode_cases c namespace name st Hvalid)
      as (r & st' & w & Hrun & _ & _ & _ & Hw & Hlen & _).
    exists r, st'. split; [exact Hrun|]. split; [by exists w|].
    intros e Hfail He.
    destruct (syncNode_provider_failed c namespace name st e Hfail Hvalid He)
      as (st'' & Hrun' & _ & _ & Hw' & _).
    rewrite Hrun in Hrun'. by injection Hrun' as -> ->.
Qed.

(** C10. The frame of an update.  Whenever a pass of syncNode submits an
    update, the submitted record is the working copy: a new object with an
    owner-reference array of its own, equal to the cached record in every
    field but the owner references and the devices (so in namespace, name,
    resource version and creation timestamp).  Every object that was in
    the heap before the pass, the cached record among them, is unchanged
    after it. *)
Theorem syncNode_update_frame c namespace name st :
  cachedValid c namespace name st →
  ∃ r st' w,
    syncNode c namespace name st = (Ret r, st') ∧
    storeWrites (trace st') = storeWrites (trace st) ++ w ∧
    preserved st st' ∧
    (∀ ns' n' refs', KubeUpdate ns' n' refs' ∈ w →
       ns' = namespace ∧
       ∃ a n,
         (NodeLister c namespace name).1 = Some a ∧
         nodes st !! a = Some n ∧ nodes st' !! a = Some n ∧
         a ≠ length (nodes st) ∧
         nodes st' !! length (nodes st) = Some n' ∧
         refs' = elems st' (apis.OwnerReferences n') ∧
         (∀ b, array (apis.OwnerReferences n') = Some b →
               arrays st !! b = None) ∧
         sameButOwnerRefsAndDevices n n' ∧
         apis.Namespace n' = apis.Namespace n ∧
         apis.Name n' = apis.Name n ∧
         apis.ResourceVersion n' = apis.ResourceVersion n ∧
         apis.CreationTimestamp n' = apis.CreationTimestamp n).
Proof.
  intros Hvalid.
  destruct (syncNode_cases c namespace name st Hvalid)
    as (r & st' & w & Hrun & Hpre & _ & _ & Hw & _ & Hupd).
  exists r, st', w. split_and!; try done.
  intros ns' n' refs' Hin.
  destruct (Hupd ns' n' refs' Hin)
    as (-> & a & n & Ha & Hn & Hsame & Hn' & Hrefs & Hfresh).
  split; [done|]. exists a, n.
  pose proof (lookup_lt_Some _ _ _ Hn) as Hlt.
  destruct Hsame as (Hns & Hnm & Huid & Hrv & Hgen & Hct & Hrest).
  split_and!; try done.
  - by apply Hpre.
  - lia.
  - intros b Hb. apply lookup_ge_None. by apply Hfresh.
Qed.

(** * The claims at the concrete node *)

Section examples.
Import example.

Local Ltac wf_example :=
  split; [simpl; lia | simpl; eexists; split; [reflexivity | simpl; lia]].

Local Ltac valid_example :=
  intros a Ha; simpl in Ha;
  first [ discriminate Ha
        | injection Ha as <-; eexists; split; [reflexivity | wf_example] ].

(** Steady state: the provider lists the devices in another order;
    nothing is written. *)
Example steady_pass :
  let c := controller found ([sdb; sda], None) in
  (syncNode c "openebs" "worker-1" steady).1 = Ret None ∧
  storeWrites (trace (syncNode c "openebs" "worker-1" steady).2) = [].
Proof. by vm_compute. Qed.

(** The flag is repaired in the copy, which is submitted; the cached
    array keeps the stale entry. *)
Example stale_pass :
  let c := controller found ([sda; sdb], None) in
  let st' := (syncNode c "openebs" "worker-1" stale).2 in
  storeWrites (trace st') =
    [KubeUpdate "openebs" (apis.setOwnerReferences (mkSlice (Some 1) 2 2) cached)
       [other; owner]] ∧
  arrays st' = [[other; staleOwner]; [other; owner]].
Proof. by vm_compute. Qed.

(** A device went away and another came: the list is replaced as it is. *)
Example devices_pass :
  let c := controller found ([sda; sdc], None) in
  let st' := (syncNode c "openebs" "worker-1" steady).2 in
  storeWrites (trace st') =
    [KubeUpdate "openebs"
       (apis.setDevices [sda; sdc]
          (apis.setOwnerReferences (mkSlice (Some 1) 2 2) cached))
       [other; owner]].
Proof. by vm_compute. Qed.

(** Two entries with the UID of the owner: the loop stops at the first. *)
Example first_match_only :
  let c := controller found ([sda; sdb], None) in
  let st := mkState [] [[staleOwner; other; staleOwner]] [] [] in
  let res := isOwnerRefsUpdateRequired c (mkSlice (Some 0) 3 3) st in
  res.1 = Ret (mkSlice (Some 0) 3 3, true) ∧
  arrays res.2 = [[owner; other; staleOwner]].
Proof. by vm_compute. Qed.

(** The worker drops an item that is no string and a key that does not
    split, and stops at the end of the queue. *)
Example junk_worker :
  let c := controller found ([sda; sdb], None) in
  (runWorker 3 c junk).1 = Ret tt ∧
  queueCalls (trace (runWorker 3 c junk).2) =
    [QueueForget (OOther 7); QueueDone (OOther 7);
     QueueForget (OString "a/b/c"); QueueDone (OString "a/b/c")].
Proof. by vm_compute. Qed.

Example split_keys :
  cache.SplitMetaNamespaceKey "openebs/worker-1" = ("openebs", "worker-1", None) ∧
  cache.SplitMetaNamespaceKey "worker-1" = ("", "worker-1", None) ∧
  is_Some (cache.SplitMetaNamespaceKey "a/b/c").2.
Proof. split_and!; [done..|by eexists]. Qed.

(** C1 at the steady node: with the devices listed in another order, and
    with one device replaced by another. *)
Lemma syncNode_devices_comparison_witness :
  wfSlice steady (apis.OwnerReferences cached) ∧
  (∃ r st' n',
     syncNode (controller found ([sdb; sda], None)) "openebs" "worker-1" steady
       = (Ret r, st') ∧
     nodes st' = nodes steady ++ [n'] ∧
     apis.Devices n' = [sda; sdb] ∧
     storeWrites (trace st') = []) ∧
  (∃ r st' n',
     syncNode (controller found ([sda; sdc], None)) "openebs" "worker-1" steady
       = (Ret r, st') ∧
     apis.Devices n' = [sda; sdc] ∧
     storeWrites (trace st')
       = [KubeUpdate "openebs" n' (elems st' (apis.OwnerReferences n'))]).
Proof.
  assert (wfSlice steady (apis.OwnerReferences cached)) as Hwf by wf_example.
  split; [exact Hwf|]. split.
  - destruct (syncNode_devices_comparison (controller found ([sdb; sda], None))
                "openebs" "worker-1" steady 0 cached [sdb; sda]
                eq_refl eq_refl eq_refl Hwf eq_refl)
      as (r & st' & n' & Hrun & Hn & Hperm & _).
    destruct (Hperm (perm_swap sdb sda [])) as (_ & Hd & Hw).
    exists r, st', n'. split; [exact Hrun|]. split; [exact Hn|].
    split; [exact Hd|exact Hw].
  - destruct (syncNode_devices_comparison (controller found ([sda; sdc], None))
                "openebs" "worker-1" steady 0 cached [sda; sdc]
                eq_refl eq_refl eq_refl Hwf eq_refl)
      as (r & st' & n' & Hrun & Hn & _ & Hdiff).
    assert (¬ (∀ d, d ∈ apis.Devices cached ↔ d ∈ [sda; sdc])) as Hne.
    { intros H. assert (sdb ∈ [sda; sdc]) as Hin by (apply H; compute_done).
      revert Hin. compute_done. }
    destruct (Hdiff Hne) as (_ & Hd & Hw).
    exists r, st', n'. split; [exact Hrun|]. split; [exact Hd|exact Hw].
Defined.

(** C2 at the steady node: the owner is the second entry, after one with
    another UID. *)
Lemma syncNode_idempotent_witness :
  wfSlice steady (apis.OwnerReferences cached) ∧
  elems steady (apis.OwnerReferences cached) = [other] ++ owner :: [] ∧
  ∃ st',
    syncNode (controller found ([sdb; sda], None)) "openebs" "worker-1" steady
      = (Ret None, st') ∧
    storeWrites (trace st') = storeWrites (trace steady).
Proof.
  assert (wfSlice steady (apis.OwnerReferences cached)) as Hwf by wf_example.
  split; [exact Hwf|]. split; [reflexivity|].
  apply (syncNode_idempotent (controller found ([sdb; sda], None))
           "openebs" "worker-1" steady 0 cached [sdb; sda]
           eq_refl eq_refl eq_refl Hwf eq_refl).
  - exists [other], owner, []. split; [reflexivity|]. split.
    + apply Forall_cons. split; [|apply Forall_nil_2].
      simpl. intros H. discriminate H.
    + split; reflexivity.
  - reflexivity.
Defined.

(** Where C2 fails as first worded: the cached owner references hold an
    entry with the UID and the controller flag of the required owner, and
    the devices match, but an earlier entry with the same UID has the flag
    off.  The loop stops at that entry, corrects it in the copy, and the
    pass submits an update. *)
Lemma syncNode_idempotent_counterexample :
  (∃ r, r ∈ elems duplicated (apis.OwnerReferences cached) ∧
        metav1.UID r = metav1.UID owner ∧
        metav1.Controller r = metav1.Controller owner) ∧
  equality.SemanticDeepEqual (apis.Devices cached) [sda; sdb] = true ∧
  (syncNode (controller found ([sda; sdb], None)) "openebs" "worker-1" duplicated).1
    = Ret None ∧
  storeWrites
    (trace (syncNode (controller found ([sda; sdb], None))
              "openebs" "worker-1" duplicated).2)
    = [KubeUpdate "openebs" (apis.setOwnerReferences (mkSlice (Some 1) 2 2) cached)
         [owner; owner]] ∧
  ¬ (∃ st',
       syncNode (controller found ([sda; sdb], None)) "openebs" "worker-1" duplicated
         = (Ret None, st') ∧
       storeWrites (trace st') = storeWrites (trace duplicated)).
Proof.
  assert (storeWrites
            (trace (syncNode (controller found ([sda; sdb], None))
                      "openebs" "worker-1" duplicated).2)
            = [KubeUpdate "openebs"
                 (apis.setOwnerReferences (mkSlice (Some 1) 2 2) cached)
                 [owner; owner]]) as Hw by (by vm_compute).
  split_and!.
  - exists owner. split; [|split; reflexivity].
    change (owner ∈ [staleOwner; owner]).
    apply list_elem_of_further, list_elem_of_here.
  - reflexivity.
  - by vm_compute.
  - exact Hw.
  - intros (st' & Hrun & Hsame). rewrite Hrun in Hw. simpl in Hw.
    rewrite Hw in Hsame. discriminate Hsame.
Qed.

(** C3 at the node without a cached record. *)
Lemma syncNode_create_on_absence_witness :
  ∃ r st' n,
    syncNode (controller notFound ([sda; sdb], None)) "openebs" "worker-1" empty
      = (Ret r, st') ∧
    storeWrites (trace st') = [KubeCreate "openebs" n [owner]] ∧
    apis.Devices n = [sda; sdb].
Proof.
  destruct (syncNode_create_on_absence (controller notFound ([sda; sdb], None))
              "openebs" "worker-1" empty [sda; sdb] eq_refl eq_refl eq_refl)
    as (r & st' & n & Hrun & Hw & _ & _ & Hd & _).
  exists r, st', n. split; [exact Hrun|]. split; [exact Hw|exact Hd].
Defined.

(** C4 on the stale owner references. *)
Lemma isOwnerRefsUpdateRequired_contract_witness :
  wfSlice stale (mkSlice (Some 0) 2 2) ∧
  ∃ s' updated st',
    isOwnerRefsUpdateRequired (controller found ([sda; sdb], None))
      (mkSlice (Some 0) 2 2) stale = (Ret (s', updated), st') ∧
    trace st' = trace stale.
Proof.
  assert (wfSlice stale (mkSlice (Some 0) 2 2)) as Hwf by wf_example.
  split; [exact Hwf|].
  destruct (isOwnerRefsUpdateRequired_contract (controller found ([sda; sdb], None))
              stale (mkSlice (Some 0) 2 2) Hwf)
    as (s' & updated & st' & Hrun & _ & Ht & _).
  exists s', updated, st'. split; [exact Hrun|exact Ht].
Defined.

(** C5 on the record of another node. *)
Lemma enqueueNode_foreign_key_rejected_witness :
  ¬ (apis.Namespace foreign = "openebs" ∧ apis.Name foreign = "worker-1") ∧
  enqueueNode (controller found ([sda; sdb], None)) (Some 1) steady =
    (Ret tt, emit (Klog Warning "skipping device node object %s/%s"
                     [AString "openebs"; AString "worker-2"]) steady).
Proof.
  assert (¬ (apis.Namespace foreign = "openebs" ∧ apis.Name foreign = "worker-1"))
    as Hforeign by (intros [_ H]; discriminate H).
  split; [exact Hforeign|].
  destruct (enqueueNode_foreign_key_rejected (controller found ([sda; sdb], None))
              steady 1 foreign eq_refl) as [_ Hrej].
  destruct (Hrej Hforeign) as [Hrun _]. exact Hrun.
Defined.

(** C6 on the key of the node, queued at the steady node. *)
Lemma processNextWorkItem_error_containment_witness :
  keyValid (controller found ([sdb; sda], None)) key steady ∧
  ∃ st' calls,
    processNextWorkItem (controller found ([sdb; sda], None)) steady
      = (Ret true, st') ∧
    workqueue st' = [] ∧
    queueCalls (trace st') = queueCalls (trace steady) ++ calls.
Proof.
  assert (keyValid (controller found ([sdb; sda], None)) key steady) as Hvalid
    by valid_example.
  split; [exact Hvalid|].
  destruct (processNextWorkItem_error_containment
              (controller found ([sdb; sda], None)) steady (OString key) []
              eq_refl)
    as (st' & calls & Hrun & Hq & Hqc & _).
  - intros k Hk. injection Hk as <-. exact Hvalid.
  - exists st', calls. split; [exact Hrun|]. split; [exact Hq|exact Hqc].
Defined.

(** C7 on a number and on a key with two slashes. *)
Lemma malformed_items_dropped_witness :
  isString (OOther 7) = false ∧
  is_Some (cache.SplitMetaNamespaceKey "a/b/c").2 ∧
  (processNextWorkItem (controller found ([sda; sdb], None)) junk).1 = Ret true ∧
  (syncHandler (controller found ([sda; sdb], None)) "a/b/c" junk).1 = Ret None.
Proof.
  assert (is_Some (cache.SplitMetaNamespaceKey "a/b/c").2) as Hbad
    by (eexists; reflexivity).
  destruct (malformed_items_dropped (controller found ([sda; sdb], None)) junk)
    as [Hitem Hkey].
  split; [reflexivity|]. split; [exact Hbad|]. split.
  - rewrite (Hitem (OOther 7) [OString "a/b/c"] eq_refl eq_refl). reflexivity.
  - destruct (Hkey "a/b/c" Hbad) as [Hsync _]. rewrite Hsync. reflexivity.
Defined.

(** C8 with a lister that fails, and with a provider that fails. *)
Lemma syncNode_failed_pass_atomic_witness :
  cachedValid (controller found ([], Some (ErrorString "lsblk failed")))
    "openebs" "worker-1" steady ∧
  syncNode (controller unavailable ([sda; sdb], None)) "openebs" "worker-1" steady
    = (Ret (Some (ErrorString "cache unavailable")),
       emit (ListerGet "openebs" "worker-1") steady) ∧
  ∃ st',
    syncNode (controller found ([], Some (ErrorString "lsblk failed")))
      "openebs" "worker-1" steady
      = (Ret (Some (ErrorString "lsblk failed")), st') ∧
    storeWrites (trace st') = storeWrites (trace steady).
Proof.
  assert (cachedValid (controller found ([], Some (ErrorString "lsblk failed")))
            "openebs" "worker-1" steady) as Hvalid by valid_example.
  split; [exact Hvalid|]. split.
  - destruct (syncNode_failed_pass_atomic (controller unavailable ([sda; sdb], None))
                "openebs" "worker-1" steady) as [Hlister _].
    destruct (Hlister (ErrorString "cache unavailable") eq_refl eq_refl) as [Hrun _].
    exact Hrun.
  - destruct (syncNode_failed_pass_atomic
                (controller found ([], Some (ErrorString "lsblk failed")))
                "openebs" "worker-1" steady) as [_ Hpass].
    destruct (Hpass Hvalid) as (r & st' & Hrun & _ & Hprov).
    destruct (Hprov (ErrorString "lsblk failed") eq_refl eq_refl) as [-> Hw].
    exists st'. split; [exact Hrun|exact Hw].
Defined.

(** C9 on a tombstone of the cached record and on a number. *)
Lemma deleteNode_tombstone_recovery_witness :
  deletedNode (OOther 7) = None ∧
  deleteNode (controller found ([sda; sdb], None))
    (ODeletedFinalStateUnknown key (ODeviceNode (Some 0))) steady =
    (Ret tt,
     emit (QueueAdd (OString key))
       (emit (Klog Info "Got delete event for node %s/%s"
                [AString "openebs"; AString "worker-1"]) steady)) ∧
  ∃ e, deleteNode (controller found ([sda; sdb], None)) (OOther 7) steady
         = (Ret tt, emit (HandleError e) steady).
Proof.
  destruct (deleteNode_tombstone_recovery (controller found ([sda; sdb], None)) steady)
    as (_ & Hlocal & Hother).
  split; [reflexivity|]. split.
  - exact (Hlocal key 0 cached eq_refl eq_refl eq_refl).
  - destruct (Hother (OOther 7) eq_refl) as (e & Hrun & _). by exists e.
Defined.

(** C10 at the node with the stale flag. *)
Lemma syncNode_update_frame_witness :
  cachedValid (controller found ([sda; sdc], None)) "openebs" "worker-1" stale ∧
  ∃ r st',
    syncNode (controller found ([sda; sdc], None)) "openebs" "worker-1" stale
      = (Ret r, st') ∧
    preserved stale st'.
Proof.
  assert (cachedValid (controller found ([sda; sdc], None))
            "openebs" "worker-1" stale) as Hvalid by valid_example.
  split; [exact Hvalid|].
  destruct (syncNode_update_frame (controller found ([sda; sdc], None))
              "openebs" "worker-1" stale Hvalid)
    as (r & st' & w & Hrun & _ & Hpre & _).
  exists r, st'. split; [exact Hrun|exact Hpre].
Defined.

End examples.


(** * Beyond the claims *)

(** ** Owner-reference repair, once more *)

(** The repair of a repaired list changes nothing. *)
Lemma repairedOwnerRefs_idem c refs :
  repairedOwnerRefs c (repairedOwnerRefs c refs).1
    = ((repairedOwnerRefs c refs).1, false).
Proof.
  unfold repairedOwnerRefs at 2 3.
  destruct (list_find (hasOwnerUID c) refs) as [[k r]|] eqn:Hfind.
  - apply list_find_Some in Hfind as (Hk & Hr & Hbefore).
    assert (Forall (λ x, metav1.UID x ≠ metav1.UID (ownerRef c)) (take k refs)) as Hpre.
    { apply Forall_lookup. intros i x Hx.
      apply lookup_take_Some in Hx as [Hx Hi]. by apply (Hbefore i x). }
    pose proof (lookup_lt_Some _ _ _ Hk) as Hklt.
    destruct (decide (metav1.Controller r = metav1.Controller (ownerRef c))); simpl.
    + apply (repairedOwnerRefs_first_ok c refs (take k refs) r (drop (S k) refs));
        [by rewrite take_drop_middle|done..].
    + apply (repairedOwnerRefs_first_ok c _ (take k refs)
               (metav1.setController (metav1.Controller (ownerRef c)) r)
               (drop (S k) refs)); [|done..].
      rewrite <- (take_drop_middle _ _ _ Hk) at 1.
      rewrite insert_app_r_alt by (rewrite length_take; lia).
      rewrite length_take, Nat.min_l by lia. by rewrite Nat.sub_diag.
  - apply list_find_None in Hfind. simpl.
    by apply (repairedOwnerRefs_first_ok c _ refs (ownerRef c) []).
Qed.

(** The repaired list holds an entry with the UID and the controller flag
    of the required owner. *)
Lemma repairedOwnerRefs_holds_owner c refs :
  ∃ r, r ∈ (repairedOwnerRefs c refs).1 ∧
       metav1.UID r = metav1.UID (ownerRef c) ∧
       metav1.Controller r = metav1.Controller (ownerRef c).
Proof.
  unfold repairedOwnerRefs.
  destruct (list_find (hasOwnerUID c) refs) as [[k r]|] eqn:Hfind.
  - apply list_find_Some in Hfind as (Hk & Hr & _).
    pose proof (lookup_lt_Some _ _ _ Hk) as Hklt.
    destruct (decide (metav1.Controller r = metav1.Controller (ownerRef c))); simpl.
    + exists r. split_and!; [|done..]. apply list_elem_of_lookup. by exists k.
    + exists (metav1.setController (metav1.Controller (ownerRef c)) r).
      split_and!; [|done..]. apply list_elem_of_lookup. exists k.
      by apply list_lookup_insert_eq.
  - exists (ownerRef c). simpl. split_and!; [|done..].
    apply elem_of_app. right. apply list_elem_of_here.
Qed.

(** X1. isOwnerRefsUpdateRequired is idempotent.  After one call on a
    well-formed slice the answer holds the required owner with the required
    controller flag, and a second call on that answer reports "unchanged",
    returns the same slice and writes nothing. *)
Theorem isOwnerRefsUpdateRequired_idempotent c st s :
  wfSlice st s →
  ∃ s' updated st',
    isOwnerRefsUpdateRequired c s st = (Ret (s', updated), st') ∧
    (∃ r, r ∈ elems st' s' ∧
          metav1.UID r = metav1.UID (ownerRef c) ∧
          metav1.Controller r = metav1.Controller (ownerRef c)) ∧
    isOwnerRefsUpdateRequired c s' st' = (Ret (s', false), st').
Proof.
  intros Hwf.
  destruct (isOwnerRefsUpdateRequired_run c st s Hwf)
    as (s' & st' & Hrun & Hel & Hwf' & _).
  destruct (isOwnerRefsUpdateRequired_run c st' s' Hwf')
    as (s'' & st'' & Hrun' & _ & _ & _ & _ & _ & _ & _ & Hsame & _).
  rewrite Hel, repairedOwnerRefs_idem in Hrun', Hsame. simpl in Hrun', Hsame.
  destruct (Hsame eq_refl) as [-> ->].
  exists s', (repairedOwnerRefs c (elems st s)).2, st'.
  split; [exact Hrun|]. split; [|exact Hrun'].
  rewrite Hel. apply repairedOwnerRefs_holds_owner.
Qed.

(** X2. The frame of isOwnerRefsUpdateRequired.  On a well-formed slice it
    writes to the backing array of that slice or to a new array, and to
    nothing else: every other array, every record, the queue and the trace
    are as before; entries that do not carry the UID of the required owner
    stay at their index; and the answer is as long as the slice or one
    longer. *)
Theorem isOwnerRefsUpdateRequired_frame c st s :
  wfSlice st s →
  ∃ s' updated st',
    isOwnerRefsUpdateRequired c s st = (Ret (s', updated), st') ∧
    nodes st' = nodes st ∧ workqueue st' = workqueue st ∧ trace st' = trace st ∧
    (∀ b xs, array s ≠ Some b → arrays st !! b = Some xs →
             arrays st' !! b = Some xs) ∧
    (∀ i r, elems st s !! i = Some r →
            metav1.UID r ≠ metav1.UID (ownerRef c) →
            elems st' s' !! i = Some r) ∧
    (len s' = len s ∨ len s' = S (len s)) ∧
    wfSlice st' s'.
Proof.
  intros Hwf.
  destruct (isOwnerRefsUpdateRequired_run c st s Hwf)
    as (s' & st' & Hrun & Hel & Hwf' & Hn & Ht & Hq & _ & Hframe & _ & _ & _ & _).
  pose proof (elems_length st s Hwf) as Hlen.
  pose proof (elems_length st' s' Hwf') as Hlen'.
  exists s', (repairedOwnerRefs c (elems st s)).2, st'.
  split_and!; try done.
  - intros b xs Hb Hxs. rewrite Hframe; [done..|]. by eapply lookup_lt_Some.
  - intros i r Hi Hr. rewrite Hel. unfold repairedOwnerRefs.
    destruct (list_find (hasOwnerUID c) (elems st s)) as [[k r0]|] eqn:Hfind.
    + apply list_find_Some in Hfind as (Hk & Hr0 & _).
      destruct (decide (metav1.Controller r0 = metav1.Controller (ownerRef c)));
        simpl; [done|].
      rewrite list_lookup_insert_ne; [done|]. intros ->.
      rewrite Hk in Hi. injection Hi as ->. done.
    + simpl. by apply lookup_app_l_Some.
  - rewrite <- Hlen, <- Hlen', Hel. unfold repairedOwnerRefs.
    destruct (list_find (hasOwnerUID c) (elems st s)) as [[k r0]|].
    + destruct (decide (metav1.Controller r0 = metav1.Controller (ownerRef c)));
        simpl; left; [done|by rewrite length_insert].
    + simpl. right. rewrite length_app. simpl. lia.
Qed.

(** ** What a pass returns *)

(** The result of a pass from a valid cache answer, read off what failed. *)
Lemma syncNode_result c namespace name st :
  cachedValid c namespace name st →
  ∃ r st' w,
    syncNode c namespace name st = (Ret r, st') ∧
    preserved st st' ∧ workqueue st' = workqueue st ∧
    queueCalls (trace st') = queueCalls (trace st) ∧
    storeWrites (trace st') = storeWrites (trace st) ++ w ∧
    (r = None ↔ passOk c namespace name w = true) ∧
    (∀ e, r = Some e →
       ((NodeLister c namespace name).2 = Some e ∧ IsNotFound e = false ∧ w = []) ∨
       ((GetDiskDetailsResult c).2 = Some e ∧ w = []) ∨
       (∃ n refs cause,
          w = [KubeCreate namespace n refs] ∧
          CreateResult c namespace n refs = Some cause ∧
          e = Errorf "create device node %s/%s: %v"
                [AString namespace; AString name; AError cause]) ∨
       (∃ n refs cause,
          w = [KubeUpdate namespace n refs] ∧
          UpdateResult c namespace n refs = Some cause ∧
          e = Errorf "update device node %s/%s: %v"
                [AString namespace; AString name; AError cause])).
Proof.
  intros Hvalid. unfold passOk.
  destruct (failedOtherThanNotFound (NodeLister c namespace name).2) eqn:Hfail.
  - destruct (NodeLister c namespace name).2 as [e|] eqn:He; [|done].
    simpl in Hfail. apply negb_true_iff in Hfail.
    exists (Some e), (emit (ListerGet namespace name) st), [].
    rewrite (syncNode_lister_failed c namespace name st e He Hfail). simpl.
    rewrite storeWrites_app, queueCalls_app. simpl. rewrite !app_nil_r.
    split_and!; try done.
    intros e' [= <-]. by left.
  - destruct (GetDiskDetailsResult c) as [devices [e|]] eqn:Hdev.
    + destruct (syncNode_provider_failed c namespace name st e Hfail Hvalid)
        as (st' & Hrun & Hpre & Hq & Hw & Hqc); [by rewrite Hdev|].
      exists (Some e), st', []. rewrite app_nil_r. simpl.
      split_and!; try done.
      intros e' [= <-]. right. by left.
    + destruct (NodeLister c namespace name).1 as [a|] eqn:Ha.
      * destruct (Hvalid a Ha) as (n & Hn & Hwf).
        destruct (syncNode_existing c namespace name st a n devices Ha Hfail Hn Hwf Hdev)
          as (st' & n' & Hrun & Hpre & _ & _ & _ & _ & Hq & Hw & Hqc & _).
        eexists _, st', _. split; [exact Hrun|].
        split; [exact Hpre|]. split; [exact Hq|]. split; [exact Hqc|].
        split; [exact Hw|]. simpl.
        destruct ((repairedOwnerRefs c (elems st (apis.OwnerReferences n))).2
                  || negb (equality.SemanticDeepEqual (apis.Devices n) devices));
          [|by split].
        simpl. unfold updateError.
        destruct (UpdateResult c namespace n'
                    (repairedOwnerRefs c (elems st (apis.OwnerReferences n))).1)
          as [cause|] eqn:Hres; [|by split].
        split; [done|]. intros e [= <-]. do 3 right. by eexists _, _, _.
      * pose proof (syncNode_absent c namespace name st devices Ha Hfail Hdev) as Hrun.
        simpl in Hrun.
        eexists _, _,
          [KubeCreate namespace
             (builtNode namespace name devices
                (mkSlice (Some (length (arrays st))) 1 1)) [ownerRef c]].
        split; [exact Hrun|]. simpl.
        rewrite !storeWrites_app, !queueCalls_app. simpl.
        unfold createError.
        destruct (CreateResult c namespace
                    (builtNode namespace name devices
                       (mkSlice (Some (length (arrays st))) 1 1)) [ownerRef c])
          as [cause|] eqn:Hres; simpl; rewrite ?app_nil_r.
        -- split_and!; try done.
           ++ split; intros ? ? ?; simpl; by apply lookup_app_l_Some.
           ++ intros e [= <-]. do 2 right. left. by eexists _, _, _.
        -- split_and!; try done.
           split; intros ? ? ?; simpl; by apply lookup_app_l_Some.
Qed.

(** X3. What syncNode returns.  From a valid cache answer a pass returns
    nil exactly when nothing failed: the lister answered or reported
    not-found, the provider answered, and the store took the write, if
    one was made.  An error is the lister's or the provider's own error,
    returned before any write, or the store's error for the one create or
    update of the pass, wrapped with the namespace and name. *)
Theorem syncNode_nil_iff_nothing_failed c namespace name st :
  cachedValid c namespace name st →
  ∃ r st' w,
    syncNode c namespace name st = (Ret r, st') ∧
    storeWrites (trace st') = storeWrites (trace st) ++ w ∧
    (r = None ↔ passOk c namespace name w = true) ∧
    (∀ e, r = Some e →
       ((NodeLister c namespace name).2 = Some e ∧ IsNotFound e = false ∧ w = []) ∨
       ((GetDiskDetailsResult c).2 = Some e ∧ w = []) ∨
       (∃ n refs cause,
          w = [KubeCreate namespace n refs] ∧
          CreateResult c namespace n refs = Some cause ∧
          e = Errorf "create device node %s/%s: %v"
                [AString namespace; AString name; AError cause]) ∨
       (∃ n refs cause,
          w = [KubeUpdate namespace n refs] ∧
          UpdateResult c namespace n refs = Some cause ∧
          e = Errorf "update device node %s/%s: %v"
                [AString namespace; AString name; AError cause])).
Proof.
  intros Hvalid.
  destruct (syncNode_result c namespace name st Hvalid)
    as (r & st' & w & Hrun & _ & _ & _ & Hw & Hok & Herr).
  by exists r, st', w.
Qed.

(** ** The worker, item by item *)

(** One round of the worker settles the item it took. *)
Lemma processNextWorkItem_settles c st o q :
  workqueue st = o :: q →
  (∀ key, o = OString key → keyValid c key st) →
  ∃ st' requeue,
    processNextWorkItem c st = (Ret true, st') ∧
    workqueue st' = q ∧ preserved st st' ∧
    queueCalls (trace st') = queueCalls (trace st) ++ settle o requeue ∧
    (isString o = false → requeue = false).
Proof.
  intros Hq Hvalid.
  destruct (processNextWorkItem_cases c st o q Hq Hvalid)
    as (st' & calls & Hrun & Hq' & Hpre & Hqc & Herr & Hnil & Hother).
  destruct (isString o) eqn:Hs.
  - destruct o as [|key| | |]; try done.
    destruct (syncHandler_cases c key (afterGet q st) (Hvalid key eq_refl))
      as (r & st1 & Hsync & _).
    destruct r as [e|].
    + exists st', true. rewrite Hqc.
      rewrite (Herr key e eq_refl) by (by rewrite Hsync). by split_and!.
    + exists st', false. rewrite Hqc.
      rewrite (Hnil key eq_refl) by (by rewrite Hsync). by split_and!.
  - exists st', false. rewrite Hqc, (Hother eq_refl). by split_and!.
Qed.

(** X4. The worker adds a key again exactly when its pass failed.  For a
    key that names a record with a valid cache answer, one round of
    processNextWorkItem makes the store writes of one pass (at most one)
    and settles the item: AddRateLimited and Done when the lister, the
    provider or the store failed, Forget and Done otherwise. *)
Theorem processNextWorkItem_requeues_on_failure c st key q :
  workqueue st = OString key :: q →
  (cache.SplitMetaNamespaceKey key).2 = None →
  keyValid c key st →
  ∃ st' w,
    processNextWorkItem c st = (Ret true, st') ∧
    workqueue st' = q ∧
    storeWrites (trace st') = storeWrites (trace st) ++ w ∧
    queueCalls (trace st') =
      queueCalls (trace st) ++
      settle (OString key)
        (negb (passOk c (cache.SplitMetaNamespaceKey key).1.1
                 (cache.SplitMetaNamespaceKey key).1.2 w)).
Proof.
  intros Hq Hsplit Hvalid.
  destruct (syncNode_result c _ _ (afterGet q st) Hvalid)
    as (r & st1 & w & Hrun & _ & Hq1 & Hqc & Hw & Hok & _).
  rewrite <- (syncHandler_valid c key _ Hsplit) in Hrun.
  rewrite (processNextWorkItem_string c st key q r st1 Hq Hrun).
  simpl in Hq1, Hqc, Hw.
  rewrite queueCalls_app in Hqc. rewrite storeWrites_app in Hw.
  simpl in Hqc, Hw. rewrite app_nil_r in Hqc, Hw.
  destruct r as [e|].
  - assert (passOk c (cache.SplitMetaNamespaceKey key).1.1
              (cache.SplitMetaNamespaceKey key).1.2 w = false) as Hp.
    { destruct (passOk _ _ _ w); [|done].
      by destruct Hok as [_ Hok]; specialize (Hok eq_refl). }
    eexists _, w. split; [reflexivity|]. rewrite Hp. simpl.
    rewrite !storeWrites_app, !queueCalls_app, Hw, Hqc. simpl.
    rewrite !app_nil_r, <- app_assoc. by split_and!.
  - eexists _, w. split; [reflexivity|]. rewrite (proj1 Hok eq_refl). simpl.
    rewrite !storeWrites_app, !queueCalls_app, Hw, Hqc. simpl.
    rewrite !app_nil_r, <- app_assoc. by split_and!.
Qed.

(** X5. The worker loop.  With fuel for every item and the final [Get],
    runWorker takes the items of the queue in order and settles each one
    with exactly two calls (Forget or AddRateLimited, then Done); items
    that are no strings are never added again; the loop returns when the
    queue reports shutdown, and the heap objects are as before. *)
Theorem runWorker_settles_every_item c q :
  ∀ fuel st,
    length q < fuel →
    workqueue st = q →
    (∀ key, OString key ∈ q → keyValid c key st) →
    ∃ st' verdicts,
      runWorker fuel c st = (Ret tt, st') ∧
      workqueue st' = [] ∧ preserved st st' ∧
      length verdicts = length q ∧
      queueCalls (trace st') =
        queueCalls (trace st) ++ concat (zip_with settle q verdicts) ∧
      (∀ i o, q !! i = Some o → isString o = false → verdicts !! i = Some false).
Proof.
  induction q as [|o q IH]; intros fuel st Hfuel Hq Hvalid.
  - destruct fuel as [|fuel]; [simpl in Hfuel; lia|].
    exists (emit QueueGet st), []. cbn [runWorker].
    unfold processNextWorkItem, workqueueGet, mbind, Go_bind. rewrite Hq.
    simpl. rewrite queueCalls_app. simpl. rewrite !app_nil_r.
    by split_and!.
  - destruct fuel as [|fuel]; [simpl in Hfuel; lia|].
    destruct (processNextWorkItem_settles c st o q Hq)
      as (st1 & b & Hrun & Hq1 & Hpre & Hqc & Hns).
    { intros key ->. apply Hvalid. by left. }
    destruct (IH fuel st1 ltac:(simpl in Hfuel; lia) Hq1)
      as (st' & verdicts & Hloop & Hq' & Hpre' & Hlen & Hqc' & Hvs).
    { intros key Hin. apply (keyValid_preserved c key st st1 Hpre).
      apply Hvalid. by right. }
    exists st', (b :: verdicts). split_and!.
    + cbn [runWorker]. by rewrite (bind_Ret _ _ _ _ _ Hrun).
    + done.
    + by eapply preserved_trans.
    + simpl. by rewrite Hlen.
    + rewrite Hqc', Hqc. simpl. by rewrite <- app_assoc.
    + intros [|i] o' Hi Hs; simpl in *.
      * injection Hi as <-. by rewrite (Hns Hs).
      * by apply (Hvs i o').
Qed.

(** ** Two passes in a row *)

Lemma repairedOwnerRefs_cacheAt c p refs :
  repairedOwnerRefs (cacheAt c p) refs = repairedOwnerRefs c refs.
Proof. reflexivity. Qed.

(** X6. One pass is enough.  Take a pass of syncNode from a valid cache
    answer in which lister and provider answer.  When the cache then holds
    the record as that pass built or left it (its working copy), and the
    provider lists the same devices, the next pass makes no store write and
    returns nil. *)
Theorem syncNode_second_pass_is_noop c namespace name st :
  cachedValid c namespace name st →
  failedOtherThanNotFound (NodeLister c namespace name).2 = false →
  (GetDiskDetailsResult c).2 = None →
  ∃ r st' st'',
    syncNode c namespace name st = (Ret r, st') ∧
    syncNode (cacheAt c (Some (length (nodes st)))) namespace name st'
      = (Ret None, st'') ∧
    storeWrites (trace st'') = storeWrites (trace st').
Proof.
  intros Hvalid Hfail Hprov.
  destruct (GetDiskDetailsResult c) as [devices perr] eqn:Hdev.
  simpl in Hprov. subst perr.
  assert (∀ st' n',
            nodes st' !! length (nodes st) = Some n' →
            wfSlice st' (apis.OwnerReferences n') →
            repairedOwnerRefs c (elems st' (apis.OwnerReferences n'))
              = (elems st' (apis.OwnerReferences n'), false) →
            equality.SemanticDeepEqual (apis.Devices n') devices = true →
            ∃ st'',
              syncNode (cacheAt c (Some (length (nodes st)))) namespace name st'
                = (Ret None, st'') ∧
              storeWrites (trace st'') = storeWrites (trace st')) as Hsecond.
  { intros st' n' Hn' Hwf' Hrep Hsame.
    destruct (syncNode_existing (cacheAt c (Some (length (nodes st))))
                namespace name st' (length (nodes st)) n' devices
                eq_refl eq_refl Hn' Hwf' Hdev)
      as (st'' & n'' & Hrun & _ & _ & _ & _ & _ & _ & Hw & _).
    rewrite repairedOwnerRefs_cacheAt, Hrep, Hsame in Hrun, Hw.
    simpl in Hrun, Hw. rewrite app_nil_r in Hw. by exists st''. }
  destruct (NodeLister c namespace name).1 as [a|] eqn:Ha.
  - destruct (Hvalid a Ha) as (n & Hn & Hwf).
    destruct (syncNode_existing c namespace name st a n devices Ha Hfail Hn Hwf Hdev)
      as (st' & n' & Hrun & _ & Hnodes & Hel & Hdevs & _ & _ & _ & _ & _ & Hwf').
    assert (nodes st' !! length (nodes st) = Some n') as Hn'
      by (rewrite Hnodes; by apply list_lookup_middle).
    assert (repairedOwnerRefs c (elems st' (apis.OwnerReferences n'))
              = (elems st' (apis.OwnerReferences n'), false)) as Hrep
      by (rewrite Hel; apply repairedOwnerRefs_idem).
    assert (equality.SemanticDeepEqual (apis.Devices n') devices = true) as Hsame.
    { rewrite Hdevs.
      destruct (equality.SemanticDeepEqual (apis.Devices n) devices) eqn:Hsame;
        [done|]. by apply Permutation_SemanticDeepEqual. }
    destruct (Hsecond st' n' Hn' Hwf' Hrep Hsame) as (st'' & Hrun' & Hw').
    by eexists _, st', st''.
  - pose proof (syncNode_absent c namespace name st devices Ha Hfail Hdev) as Hrun.
    simpl in Hrun.
    set (n' := builtNode namespace name devices
                 (mkSlice (Some (length (arrays st))) 1 1)) in *.
    match type of Hrun with _ = (_, ?s) => set (st' := s) in * end.
    assert (elems st' (apis.OwnerReferences n') = [ownerRef c]) as Hel.
    { unfold elems, backing. simpl. by rewrite list_lookup_middle. }
    assert (nodes st' !! length (nodes st) = Some n') as Hn'
      by (simpl; by apply list_lookup_middle).
    assert (wfSlice st' (apis.OwnerReferences n')) as Hwf'.
    { split; [simpl; lia|]. simpl. exists [ownerRef c].
      split; [by apply list_lookup_middle|simpl; lia]. }
    assert (repairedOwnerRefs c (elems st' (apis.OwnerReferences n'))
              = (elems st' (apis.OwnerReferences n'), false)) as Hrep.
    { rewrite Hel.
      by apply (repairedOwnerRefs_first_ok c _ [] (ownerRef c) []). }
    assert (equality.SemanticDeepEqual (apis.Devices n') devices = true) as Hsame
      by (by apply Permutation_SemanticDeepEqual).
    destruct (Hsecond st' n' Hn' Hwf' Hrep Hsame) as (st'' & Hrun' & Hw').
    by eexists _, st', st''.
Qed.

(** ** The event handlers *)

Lemma MetaNamespaceKeyFunc_local c n :
  isLocal c n = true → (cache.MetaNamespaceKeyFunc n).1 = localKey c.
Proof.
  unfold isLocal, cache.MetaNamespaceKeyFunc, localKey. intros Hl.
  apply bool_decide_eq_true_1 in Hl as [-> ->]. by case_bool_decide.
Qed.

(** enqueueNode after a log line, for a node found in the payload. *)
Lemma enqueueNode_after_log c st a n format args :
  nodes st !! a = Some n →
  onlyEnqueues c st (Some (Some a))
    (enqueueNode c (Some a) (emit (Klog Info format args) st)).
Proof.
  intros Hn. rewrite (enqueueNode_run c _ a n) by done.
  unfold onlyEnqueues, enqueued. rewrite Hn.
  fold (isLocal c n). destruct (isLocal c n) eqn:Hl; simpl;
    rewrite !storeWrites_app, !queueCalls_app; simpl;
    rewrite ?app_nil_r, ?(MetaNamespaceKeyFunc_local c n Hl); by split_and!.
Qed.

(** A payload without a node is reported and nothing else. *)
Lemma reported_only c st e :
  onlyEnqueues c st None (runtimeHandleError e st).
Proof.
  unfold onlyEnqueues. simpl. rewrite storeWrites_app, queueCalls_app. simpl.
  rewrite !app_nil_r. by split_and!.
Qed.

(** X7. The handlers put nothing but the key of the local node on the
    queue.  For every payload whose DeviceNode pointer, if it holds one,
    leads to a record, addNode, updateNode and deleteNode return, leave
    heap and store alone, and make one call on the queue, Add of the local
    key, when the payload holds the local node (for deleteNode also inside a
    tombstone), and no call at all otherwise. *)
Theorem handlers_enqueue_only_local_key c st :
  (∀ o, payloadValid st (addedNode o) →
        onlyEnqueues c st (addedNode o) (addNode c o st)) ∧
  (∀ oldObj o, payloadValid st (addedNode o) →
        onlyEnqueues c st (addedNode o) (updateNode c oldObj o st)) ∧
  (∀ o, payloadValid st (deletedNode o) →
        onlyEnqueues c st (deletedNode o) (deleteNode c o st)).
Proof.
  assert (∀ p format,
            (∃ a n, p = Some a ∧ nodes st !! a = Some n) →
            onlyEnqueues c st (Some p)
              ((n ← loadNode p;
                klogInfof format
                  [AString (apis.Namespace n); AString (apis.Name n)];;
                enqueueNode c p) st)) as Hfound.
  { intros p format (a & n & -> & Hn).
    rewrite (bind_Ret _ _ _ _ _ (loadNode_Ret _ _ _ Hn)).
    erewrite bind_Ret by reflexivity. by apply (enqueueNode_after_log c st a n). }
  split_and!.
  - intros o Hvalid. destruct o as [| |p| |]; try apply reported_only.
    apply Hfound. by apply Hvalid.
  - intros oldObj o Hvalid. destruct o as [| |p| |]; try apply reported_only.
    apply Hfound. by apply Hvalid.
  - intros o Hvalid. destruct o as [| |p|key o'|]; try apply reported_only.
    + apply Hfound. by apply Hvalid.
    + destruct o' as [| |p| |]; try apply reported_only.
      apply Hfound. by apply Hvalid.
Qed.

(** ** Keys *)

Lemma splitSlash_no_slash s : hasSlash s = false → cache.splitSlash s = [s].
Proof.
  induction s as [|ch s IH]; [done|]. simpl. intros H.
  apply orb_false_iff in H as [Hch Hs]. rewrite Hch, (IH Hs). done.
Qed.

Lemma splitSlash_join a b :
  hasSlash a = false →
  cache.splitSlash (a +:+ "/" +:+ b) = a :: cache.splitSlash b.
Proof.
  induction a as [|ch a IH]; [done|]. simpl. intros H.
  apply orb_false_iff in H as [Hch Ha]. rewrite Hch, (IH Ha). done.
Qed.

(** X8. A key leads back to the record it was made for.  When neither
    namespace nor name holds a slash, syncHandler on the key that
    enqueueNode makes for a node runs syncNode with the namespace and name
    of that node; and syncHandler on the item that the timer of Run adds
    runs syncNode with the device namespace and the node identifier. *)
Theorem keys_lead_to_own_record c st :
  (∀ n, hasSlash (apis.Namespace n) = false → hasSlash (apis.Name n) = false →
        syncHandler c (cache.MetaNamespaceKeyFunc n).1 st
          = syncNode c (apis.Namespace n) (apis.Name n) st) ∧
  (hasSlash (DeviceNamespace c) = false → hasSlash (NodeID c) = false →
   syncHandler c (resyncItem c) st
     = syncNode c (DeviceNamespace c) (NodeID c) st).
Proof.
  assert (∀ ns nm, hasSlash ns = false → hasSlash nm = false →
            cache.SplitMetaNamespaceKey (ns +:+ "/" +:+ nm) = (ns, nm, None)) as Hjoin.
  { intros ns nm Hns Hnm. unfold cache.SplitMetaNamespaceKey.
    by rewrite (splitSlash_join ns nm Hns), (splitSlash_no_slash nm Hnm). }
  split.
  - intros n Hns Hnm. unfold cache.MetaNamespaceKeyFunc.
    case_bool_decide as Hempty; simpl.
    + rewrite syncHandler_valid;
        unfold cache.SplitMetaNamespaceKey;
        rewrite (splitSlash_no_slash _ Hnm); [|done]. simpl. by rewrite Hempty.
    + rewrite syncHandler_valid; rewrite (Hjoin _ _ Hns Hnm); done.
  - intros Hns Hnm. unfold resyncItem.
    rewrite syncHandler_valid; rewrite (Hjoin _ _ Hns Hnm); done.
Qed.

(** ** Run *)

Lemma resyncLoop_calls c pollInterval script :
  (resyncLoop c pollInterval script).1
    = (if stops script then Returned None else Waiting) ∧
  List.filter isGoWorker (resyncLoop c pollInterval script).2 = [] ∧
  List.filter isQueueShutDown (resyncLoop c pollInterval script).2 = [] ∧
  List.filter isRunQueueAdd (resyncLoop c pollInterval script).2
    = replicate (roundsBeforeStop script) (RunQueueAdd (OString (resyncItem c))).
Proof.
  induction script as [|[|] script IH]; [done| |done].
  simpl. destruct (resyncLoop c pollInterval script) as [out calls].
  simpl in *. destruct IH as (-> & -> & -> & ->). done.
Qed.

Lemma filter_replicate_GoWorker n :
  List.filter isGoWorker (replicate n GoWorker) = replicate n GoWorker ∧
  List.filter isRunQueueAdd (replicate n GoWorker) = [] ∧
  List.filter isQueueShutDown (replicate n GoWorker) = [].
Proof. induction n as [|n (IH1 & IH2 & IH3)]; [done|]. simpl. by rewrite IH1, IH2, IH3. Qed.

(** X9. The life of Run, on its own goroutine.  When the caches do not
    sync, Run returns the error without starting a worker or adding an
    item.  When they do, it starts [threadiness] workers (none for a
    count below one), adds the item of the local node once for every
    round of the timer before the stop channel closes, and then returns
    nil.  Whenever Run returns, the queue is shut down, once, as the last
    call but the recovery from a crash; while it waits, the queue is not
    shut down. *)
Theorem Run_lifecycle c pollInterval threadiness synced script :
  let res := Run c pollInterval threadiness synced script in
  (synced = false →
     res.1 = Returned (Some (Errorf "failed to wait for caches to sync" [])) ∧
     List.filter isGoWorker res.2 = [] ∧
     List.filter isRunQueueAdd res.2 = []) ∧
  (synced = true →
     res.1 = (if stops script then Returned None else Waiting) ∧
     List.filter isGoWorker res.2 = replicate (Z.to_nat threadiness) GoWorker ∧
     List.filter isRunQueueAdd res.2
       = replicate (roundsBeforeStop script) (RunQueueAdd (OString (resyncItem c)))) ∧
  (∀ err, res.1 = Returned err →
     ∃ calls, res.2 = calls ++ [QueueShutDown; HandleCrash] ∧
              List.filter isQueueShutDown calls = []) ∧
  (res.1 = Waiting → List.filter isQueueShutDown res.2 = []).
Proof.
  unfold Run. destruct synced; simpl.
  - pose proof (resyncLoop_calls c pollInterval script) as (Hout & Hgo & Hsd & Hadd).
    destruct (resyncLoop c pollInterval script) as [out calls]. simpl in *.
    destruct (filter_replicate_GoWorker (Z.to_nat threadiness)) as (Hr1 & Hr2 & Hr3).
    unfold startWorkers. destruct out as [err|]; simpl.
    + split_and!.
      * done.
      * intros _. rewrite !List.filter_app. simpl.
        rewrite Hr1, Hr2, Hgo, Hadd. simpl. by rewrite !app_nil_r.
      * intros err' _.
        exists ([RunInfo "Starting Node controller";
                 RunInfo "Waiting for informer caches to sync";
                 WaitForCacheSync; RunInfo "Starting Node workers"] ++
                (replicate (Z.to_nat threadiness) GoWorker ++
                 RunInfo "Started Node workers" :: NewTimer 0 :: calls) ++
                [TimerStop]).
        split; [simpl; by rewrite <- !app_assoc|].
        rewrite !List.filter_app. simpl. by rewrite Hr3, Hsd.
      * done.
    + split_and!.
      * done.
      * intros _. rewrite !List.filter_app. simpl.
        rewrite Hr1, Hr2, Hgo, Hadd. simpl. by rewrite !app_nil_r.
      * done.
      * intros _. rewrite !List.filter_app. simpl. by rewrite Hr3, Hsd.
  - split_and!; try done.
    intros err _. by exists [RunInfo "Starting Node controller";
                          RunInfo "Waiting for informer caches to sync";
                          WaitForCacheSync].
Qed.

(** ** What a pass writes *)

(** The store writes of a pass from a valid cache answer: none, one create
    when nothing is cached, or one update of a cached record. *)
Lemma syncNode_writes c namespace name st :
  cachedValid c namespace name st →
  ∃ r st' w,
    syncNode c namespace name st = (Ret r, st') ∧
    storeWrites (trace st') = storeWrites (trace st) ++ w ∧
    ((w = [] ∧
      ¬ ((NodeLister c namespace name).1 = None ∧
         failedOtherThanNotFound (NodeLister c namespace name).2 = false ∧
         (GetDiskDetailsResult c).2 = None)) ∨
     (∃ n,
        w = [KubeCreate namespace n [ownerRef c]] ∧
        (NodeLister c namespace name).1 = None ∧
        failedOtherThanNotFound (NodeLister c namespace name).2 = false ∧
        (GetDiskDetailsResult c).2 = None ∧
        apis.Devices n = (GetDiskDetailsResult c).1) ∨
     (∃ a n0 n,
        w = [KubeUpdate namespace n
               (repairedOwnerRefs c (elems st (apis.OwnerReferences n0))).1] ∧
        (NodeLister c namespace name).1 = Some a ∧
        nodes st !! a = Some n0 ∧
        equality.SemanticDeepEqual (apis.Devices n) (GetDiskDetailsResult c).1 = true)).
Proof.
  intros Hvalid.
  destruct (failedOtherThanNotFound (NodeLister c namespace name).2) eqn:Hfail.
  - destruct (NodeLister c namespace name).2 as [e|] eqn:He; [|done].
    simpl in Hfail. apply negb_true_iff in Hfail.
    exists (Some e), (emit (ListerGet namespace name) st), [].
    rewrite (syncNode_lister_failed c namespace name st e He Hfail). simpl.
    rewrite storeWrites_app. simpl. rewrite !app_nil_r.
    split_and!; try done. left. split; [done|]. by intros (_ & Hf & _).
  - destruct (GetDiskDetailsResult c) as [devices [e|]] eqn:Hdev.
    + destruct (syncNode_provider_failed c namespace name st e Hfail Hvalid)
        as (st' & Hrun & _ & _ & Hw & _); [by rewrite Hdev|].
      exists (Some e), st', []. rewrite app_nil_r.
      split_and!; try done. left. split; [done|]. by intros (_ & _ & ?).
    + destruct (NodeLister c namespace name).1 as [a|] eqn:Ha.
      * destruct (Hvalid a Ha) as (n & Hn & Hwf).
        destruct (syncNode_existing c namespace name st a n devices Ha Hfail Hn Hwf Hdev)
          as (st' & n' & Hrun & _ & _ & _ & Hdevs & _ & _ & Hw & _).
        eexists _, st', _. split; [exact Hrun|]. split; [exact Hw|].
        destruct ((repairedOwnerRefs c (elems st (apis.OwnerReferences n))).2
                  || negb (equality.SemanticDeepEqual (apis.Devices n) devices)).
        -- right. right. exists a, n, n'. split_and!; try done.
           simpl. rewrite Hdevs.
           destruct (equality.SemanticDeepEqual (apis.Devices n) devices) eqn:Hsame;
             [done|]. by apply Permutation_SemanticDeepEqual.
        -- left. split; [done|]. by intros (? & _).
      * pose proof (syncNode_absent c namespace name st devices Ha Hfail Hdev) as Hrun.
        simpl in Hrun.
        eexists _, _,
          [KubeCreate namespace
             (builtNode namespace name devices
                (mkSlice (Some (length (arrays st))) 1 1)) [ownerRef c]].
        split; [exact Hrun|]. simpl. split.
        -- rewrite storeWrites_app. f_equal. simpl. by case_match.
        -- right. left. by eexists.
Qed.

(** X10. A record is created exactly when none is cached.  From a valid
    cache answer the one store write of a pass is a create if and only if
    the lister handed back no record without failing and the provider
    answered; an update is only ever made for a record the lister handed
    back; a pass never makes both. *)
Theorem syncNode_creates_iff_absent c namespace name st :
  cachedValid c namespace name st →
  ∃ r st' w,
    syncNode c namespace name st = (Ret r, st') ∧
    storeWrites (trace st') = storeWrites (trace st) ++ w ∧
    ((∃ n refs, w = [KubeCreate namespace n refs]) ↔
       (NodeLister c namespace name).1 = None ∧
       failedOtherThanNotFound (NodeLister c namespace name).2 = false ∧
       (GetDiskDetailsResult c).2 = None) ∧
    ((∃ n refs, w = [KubeUpdate namespace n refs]) →
       is_Some (NodeLister c namespace name).1) ∧
    (w = [] ∨ (∃ n refs, w = [KubeCreate namespace n refs])
            ∨ (∃ n refs, w = [KubeUpdate namespace n refs])).
Proof.
  intros Hvalid.
  destruct (syncNode_writes c namespace name st Hvalid)
    as (r & st' & w & Hrun & Hw & Hcases).
  exists r, st', w. split; [exact Hrun|]. split; [exact Hw|].
  destruct Hcases as [[-> Hnot]|[(n & -> & Ha & Hf & Hp & _)|(a & n0 & n & -> & Ha & _)]].
  - split_and!.
    + split; [by intros (? & ? & ?)|by intros ?].
    + by intros (? & ? & ?).
    + by left.
  - split_and!.
    + split; [done|]. intros _. by eexists _, _.
    + by intros (? & ? & ?).
    + right. left. by eexists _, _.
  - split_and!.
    + split; [by intros (? & ? & ?)|]. intros (Hnone & _). by rewrite Ha in Hnone.
    + intros _. by rewrite Ha.
    + right. right. by eexists _, _.
Qed.

(** X11. What is submitted is the desired state.  Every record that a
    pass from a valid cache answer submits, as a create or as an update,
    carries an owner reference with the UID and the controller flag of the
    required owner, and devices that the comparison of the pass finds
    equal to the list the provider gave. *)
Theorem syncNode_submits_desired_state c namespace name st :
  cachedValid c namespace name st →
  ∃ r st' w,
    syncNode c namespace name st = (Ret r, st') ∧
    storeWrites (trace st') = storeWrites (trace st) ++ w ∧
    ∀ e, e ∈ w →
      ∃ n refs,
        (e = KubeCreate namespace n refs ∨ e = KubeUpdate namespace n refs) ∧
        (∃ o, o ∈ refs ∧
              metav1.UID o = metav1.UID (ownerRef c) ∧
              metav1.Controller o = metav1.Controller (ownerRef c)) ∧
        equality.SemanticDeepEqual (apis.Devices n) (GetDiskDetailsResult c).1 = true.
Proof.
  intros Hvalid.
  destruct (syncNode_writes c namespace name st Hvalid)
    as (r & st' & w & Hrun & Hw & Hcases).
  exists r, st', w. split; [exact Hrun|]. split; [exact Hw|].
  intros e He.
  destruct Hcases as [[-> _]|[(n & -> & _ & _ & _ & Hd)|(a & n0 & n & -> & _ & _ & Hd)]].
  - by apply elem_of_nil in He.
  - apply list_elem_of_singleton in He as ->.
    exists n, [ownerRef c]. split_and!.
    + by left.
    + exists (ownerRef c). split_and!; [apply list_elem_of_here|done..].
    + rewrite Hd. by apply Permutation_SemanticDeepEqual.
  - apply list_elem_of_singleton in He as ->.
    eexists n, _. split_and!.
    + by right.
    + apply repairedOwnerRefs_holds_owner.
    + exact Hd.
Qed.

(** ** The further properties at the concrete node *)

Section more_examples.
Import example.

Local Ltac wf_example :=
  split; [simpl; lia | simpl; eexists; split; [reflexivity | simpl; lia]].

Local Ltac valid_example :=
  intros a Ha; simpl in Ha;
  first [ discriminate Ha
        | injection Ha as <-; eexists; split; [reflexivity | wf_example] ].

(** X1 on the stale owner references. *)
Lemma isOwnerRefsUpdateRequired_idempotent_witness :
  wfSlice stale (mkSlice (Some 0) 2 2) ∧
  ∃ s' updated st',
    isOwnerRefsUpdateRequired (controller found ([sda; sdb], None))
      (mkSlice (Some 0) 2 2) stale = (Ret (s', updated), st') ∧
    isOwnerRefsUpdateRequired (controller found ([sda; sdb], None)) s' st'
      = (Ret (s', false), st').
Proof.
  assert (wfSlice stale (mkSlice (Some 0) 2 2)) as Hwf by wf_example.
  split; [exact Hwf|].
  destruct (isOwnerRefsUpdateRequired_idempotent (controller found ([sda; sdb], None))
              stale (mkSlice (Some 0) 2 2) Hwf)
    as (s' & updated & st' & Hrun & _ & Hagain).
  exists s', updated, st'. split; [exact Hrun|exact Hagain].
Defined.

(** X2 on the stale owner references. *)
Lemma isOwnerRefsUpdateRequired_frame_witness :
  wfSlice stale (mkSlice (Some 0) 2 2) ∧
  ∃ s' updated st',
    isOwnerRefsUpdateRequired (controller found ([sda; sdb], None))
      (mkSlice (Some 0) 2 2) stale = (Ret (s', updated), st') ∧
    nodes st' = nodes stale ∧
    elems st' s' !! 0 = Some other.
Proof.
  assert (wfSlice stale (mkSlice (Some 0) 2 2)) as Hwf by wf_example.
  split; [exact Hwf|].
  destruct (isOwnerRefsUpdateRequired_frame (controller found ([sda; sdb], None))
              stale (mkSlice (Some 0) 2 2) Hwf)
    as (s' & updated & st' & Hrun & Hn & _ & _ & _ & Hkeep & _).
  exists s', updated, st'. split; [exact Hrun|]. split; [exact Hn|].
  apply Hkeep; [reflexivity|]. intros H. discriminate H.
Defined.

(** X3 with a store that rejects the update. *)
Lemma syncNode_nil_iff_nothing_failed_witness :
  cachedValid
    (mkNodeController owner "openebs" "worker-1" found ([sda; sdc], None) accept
       (λ _ _ _, Some (StatusError "Conflict" "the object has been modified")))
    "openebs" "worker-1" steady ∧
  ∃ r st' w,
    syncNode
      (mkNodeController owner "openebs" "worker-1" found ([sda; sdc], None) accept
         (λ _ _ _, Some (StatusError "Conflict" "the object has been modified")))
      "openebs" "worker-1" steady = (Ret r, st') ∧
    storeWrites (trace st') = storeWrites (trace steady) ++ w.
Proof.
  assert (cachedValid
            (mkNodeController owner "openebs" "worker-1" found ([sda; sdc], None) accept
               (λ _ _ _, Some (StatusError "Conflict" "the object has been modified")))
            "openebs" "worker-1" steady) as Hvalid by valid_example.
  split; [exact Hvalid|].
  destruct (syncNode_nil_iff_nothing_failed _ "openebs" "worker-1" steady Hvalid)
    as (r & st' & w & Hrun & Hw & _).
  exists r, st', w. split; [exact Hrun|exact Hw].
Defined.

(** X4 on the key of the node, queued at the steady node, with a provider
    that fails. *)
Lemma processNextWorkItem_requeues_on_failure_witness :
  keyValid (controller found ([], Some (ErrorString "lsblk failed"))) key steady ∧
  ∃ st',
    processNextWorkItem (controller found ([], Some (ErrorString "lsblk failed"))) steady
      = (Ret true, st') ∧
    queueCalls (trace st') =
      [QueueAddRateLimited (OString key); QueueDone (OString key)].
Proof.
  assert (keyValid (controller found ([], Some (ErrorString "lsblk failed"))) key steady)
    as Hvalid by valid_example.
  split; [exact Hvalid|].
  destruct (processNextWorkItem_requeues_on_failure
              (controller found ([], Some (ErrorString "lsblk failed")))
              steady key [] eq_refl eq_refl Hvalid)
    as (st' & w & Hrun & _ & _ & Hqc).
  exists st'. split; [exact Hrun|exact Hqc].
Defined.

(** X5 on a queue with an item that is no string and the key of the
    node. *)
Lemma runWorker_settles_every_item_witness :
  (∀ k, OString k ∈ [OOther 7; OString key] →
        keyValid (controller found ([sdb; sda], None)) k
          (setWorkqueue [OOther 7; OString key] steady)) ∧
  ∃ st' (verdicts : list bool),
    runWorker 3 (controller found ([sdb; sda], None))
      (setWorkqueue [OOther 7; OString key] steady) = (Ret tt, st') ∧
    workqueue st' = [] ∧
    length verdicts = 2.
Proof.
  assert (∀ k, OString k ∈ [OOther 7; OString key] →
               keyValid (controller found ([sdb; sda], None)) k
                 (setWorkqueue [OOther 7; OString key] steady)) as Hvalid.
  { intros k Hk a Ha. simpl in Ha. injection Ha as <-.
    eexists. split; [reflexivity|wf_example]. }
  split; [exact Hvalid|].
  destruct (runWorker_settles_every_item (controller found ([sdb; sda], None))
              [OOther 7; OString key] 3
              (setWorkqueue [OOther 7; OString key] steady)
              ltac:(simpl; lia) eq_refl Hvalid)
    as (st' & verdicts & Hrun & Hq & _ & Hlen & _).
  exists st', verdicts. split; [exact Hrun|]. split; [exact Hq|exact Hlen].
Defined.

(** X6 at the node with the stale flag and a device replaced. *)
Lemma syncNode_second_pass_is_noop_witness :
  cachedValid (controller found ([sda; sdc], None)) "openebs" "worker-1" stale ∧
  ∃ r st' st'',
    syncNode (controller found ([sda; sdc], None)) "openebs" "worker-1" stale
      = (Ret r, st') ∧
    syncNode (cacheAt (controller found ([sda; sdc], None)) (Some 2))
      "openebs" "worker-1" st' = (Ret None, st'') ∧
    storeWrites (trace st'') = storeWrites (trace st').
Proof.
  assert (cachedValid (controller found ([sda; sdc], None))
            "openebs" "worker-1" stale) as Hvalid by valid_example.
  split; [exact Hvalid|].
  exact (syncNode_second_pass_is_noop (controller found ([sda; sdc], None))
           "openebs" "worker-1" stale Hvalid eq_refl eq_refl).
Defined.

(** X7 on a tombstone of the cached record, on the record of another
    node, and on a number. *)
Lemma handlers_enqueue_only_local_key_witness :
  payloadValid steady (Some (Some 0)) ∧
  queueCalls
    (trace (deleteNode (controller found ([sda; sdb], None))
              (ODeletedFinalStateUnknown key (ODeviceNode (Some 0))) steady).2)
    = [QueueAdd (OString key)] ∧
  queueCalls
    (trace (updateNode (controller found ([sda; sdb], None))
              ONil (ODeviceNode (Some 1)) steady).2) = [] ∧
  queueCalls
    (trace (addNode (controller found ([sda; sdb], None)) (OOther 7) steady).2) = [].
Proof.
  assert (∀ a, a < 2 → payloadValid steady (Some (Some a))) as Hvalid.
  { intros a Ha p Hp. injection Hp as <-.
    destruct a as [|[|a]]; [by eexists 0, _|by eexists 1, _|lia]. }
  destruct (handlers_enqueue_only_local_key (controller found ([sda; sdb], None)) steady)
    as (Hadd & Hupd & Hdel).
  split; [apply Hvalid; lia|]. split_and!.
  - destruct (Hdel (ODeletedFinalStateUnknown key (ODeviceNode (Some 0))))
      as (_ & _ & _ & _ & _ & Hqc); [apply Hvalid; lia|exact Hqc].
  - destruct (Hupd ONil (ODeviceNode (Some 1)))
      as (_ & _ & _ & _ & _ & Hqc); [apply Hvalid; lia|exact Hqc].
  - destruct (Hadd (OOther 7)) as (_ & _ & _ & _ & _ & Hqc); [|exact Hqc].
    intros p Hp. discriminate Hp.
Defined.

(** X8 on the cached record and on the item of the timer. *)
Lemma keys_lead_to_own_record_witness :
  hasSlash "openebs" = false ∧ hasSlash "worker-1" = false ∧
  syncHandler (controller found ([sdb; sda], None))
    (cache.MetaNamespaceKeyFunc cached).1 steady
    = syncNode (controller found ([sdb; sda], None)) "openebs" "worker-1" steady ∧
  syncHandler (controller found ([sdb; sda], None))
    (resyncItem (controller found ([sdb; sda], None))) steady
    = syncNode (controller found ([sdb; sda], None)) "openebs" "worker-1" steady.
Proof.
  destruct (keys_lead_to_own_record (controller found ([sdb; sda], None)) steady)
    as [Hkey Hitem].
  split; [reflexivity|]. split; [reflexivity|]. split.
  - exact (Hkey cached eq_refl eq_refl).
  - exact (Hitem eq_refl eq_refl).
Defined.

(** X9 with two workers and two rounds of the timer before the stop. *)
Lemma Run_lifecycle_witness :
  (Run (controller found ([sda; sdb], None)) 60 2 true
     [TimerFired; TimerFired; StopClosed]).1 = Returned None ∧
  List.filter isRunQueueAdd
    (Run (controller found ([sda; sdb], None)) 60 2 true
       [TimerFired; TimerFired; StopClosed]).2
    = [RunQueueAdd (OString key); RunQueueAdd (OString key)] ∧
  (Run (controller found ([sda; sdb], None)) 60 2 false []).1
    = Returned (Some (Errorf "failed to wait for caches to sync" [])).
Proof.
  destruct (Run_lifecycle (controller found ([sda; sdb], None)) 60 2 true
              [TimerFired; TimerFired; StopClosed])
    as (_ & Hsynced & _).
  destruct (Hsynced eq_refl) as (Hout & _ & Hadd).
  destruct (Run_lifecycle (controller found ([sda; sdb], None)) 60 2 false [])
    as (Hfailed & _).
  destruct (Hfailed eq_refl) as (Herr & _).
  split; [exact Hout|]. split; [exact Hadd|exact Herr].
Defined.

(** X10 at the node without a cached record. *)
Lemma syncNode_creates_iff_absent_witness :
  cachedValid (controller notFound ([sda; sdb], None)) "openebs" "worker-1" empty ∧
  ∃ r st' w n refs,
    syncNode (controller notFound ([sda; sdb], None)) "openebs" "worker-1" empty
      = (Ret r, st') ∧
    storeWrites (trace st') = storeWrites (trace empty) ++ w ∧
    w = [KubeCreate "openebs" n refs].
Proof.
  assert (cachedValid (controller notFound ([sda; sdb], None))
            "openebs" "worker-1" empty) as Hvalid by valid_example.
  split; [exact Hvalid|].
  destruct (syncNode_creates_iff_absent (controller notFound ([sda; sdb], None))
              "openebs" "worker-1" empty Hvalid)
    as (r & st' & w & Hrun & Hw & [_ Hcreate] & _).
  destruct (Hcreate (conj eq_refl (conj eq_refl eq_refl))) as (n & refs & Hn).
  exists r, st', w, n, refs. split; [exact Hrun|]. split; [exact Hw|exact Hn].
Defined.

(** X11 at the node with the stale flag. *)
Lemma syncNode_submits_desired_state_witness :
  cachedValid (controller found ([sda; sdc], None)) "openebs" "worker-1" stale ∧
  ∃ r st' w,
    syncNode (controller found ([sda; sdc], None)) "openebs" "worker-1" stale
      = (Ret r, st') ∧
    storeWrites (trace st') = storeWrites (trace stale) ++ w.
Proof.
  assert (cachedValid (controller found ([sda; sdc], None))
            "openebs" "worker-1" stale) as Hvalid by valid_example.
  split; [exact Hvalid|].
  destruct (syncNode_submits_desired_state (controller found ([sda; sdc], None))
              "openebs" "worker-1" stale Hvalid)
    as (r & st' & w & Hrun & Hw & _).
  exists r, st', w. split; [exact Hrun|exact Hw].
Defined.

(** A pass, and the pass after it. *)
Example two_passes :
  let c := controller found ([sda; sdc], None) in
  let st' := (syncNode c "openebs" "worker-1" stale).2 in
  let st'' := (syncNode (cacheAt c (Some 2)) "openebs" "worker-1" st').2 in
  length (storeWrites (trace st')) = 1 ∧ length (storeWrites (trace st'')) = 1.
Proof. by vm_compute. Qed.

(** Run with a script that ends before the stop: the call still waits. *)
Example run_waiting :
  (Run (controller found ([sda; sdb], None)) 60 (-1) true [TimerFired]).1 = Waiting ∧
  (Run (controller found ([sda; sdb], None)) 60 (-1) true [TimerFired]).2 =
    [RunInfo "Starting Node controller";
     RunInfo "Waiting for informer caches to sync";
     WaitForCacheSync;
     RunInfo "Starting Node workers";
     RunInfo "Started Node workers";
     NewTimer 0;
     RunQueueAdd (OString key);
     TimerReset 60].
Proof. by vm_compute. Qed.

End more_examples.
